(** * Combining sample standard deviations

    A shallow embedding of [combining_sample_stdev.py] (Python 2) and the
    properties of its base statistics and of its combination algebra.

    Numbers.  A Python number is an [int] or a [float].  Floats are idealised
    as real numbers: rounding, overflow, infinities and NaN are outside the
    model.  The Python 2 operators are modelled with their coercions: an
    operation on two ints stays an int (so [/] on two ints is floor division),
    any operation involving a float yields a float.

    Errors.  Division by zero raises [ZeroDivisionError] on ints and on floats
    alike; [math.sqrt] of a negative number raises [ValueError].

    Two readings of a float.  The program is embedded twice.  In the first
    embedding (module [Py] and the functions after it) a float is a real
    number: what is proved there holds of the formulas the program
    evaluates, exactly over the reals, and of the program itself wherever
    rounding cannot matter (kinds of results, errors, signs).  In the second
    (module [IEEE]) a float is a binary64 number with its rounding,
    infinities and NaN, and a float operation that overflows raises
    [OverflowError]: it is evaluated on concrete inputs to show where the
    interpreter's results leave the exact ones.  Statements that hold only
    over the reals say so. *)

From Stdlib Require Import String.
From Stdlib Require Import Reals ZArith List Permutation Bool.
From Stdlib Require Import Lra Lia Psatz.
From Stdlib Require PrimFloat FloatOps SpecFloat.
Import ListNotations.

Open Scope R_scope.

(** ** Exceptions and results *)

Inductive exn : Type :=
| ZeroDivisionError
| ValueError
| OverflowError.

Inductive result (A : Type) : Type :=
| Ok (a : A)
| Raise (e : exn).

Arguments Ok {A} a.
Arguments Raise {A} e.

Definition bind {A B : Type} (c : result A) (k : A -> result B) : result B :=
  match c with
  | Ok a => k a
  | Raise e => Raise e
  end.

Notation "x <- c ;; k" := (bind c (fun x => k))
  (at level 61, c at next level, right associativity).

(** [default o c]: the idiom [if o is None: o = c]. *)
Definition default {A : Type} (o : option A) (c : result A) : result A :=
  match o with
  | Some a => Ok a
  | None => c
  end.

(** ** Python numbers *)

Module Py.

Inductive num : Type :=
| Int (z : Z)
| Float (r : R).

Definition toR (x : num) : R :=
  match x with
  | Int z => IZR z
  | Float r => r
  end.

Definition is_int (x : num) : bool :=
  match x with
  | Int _ => true
  | Float _ => false
  end.

Definition add (x y : num) : num :=
  match x, y with
  | Int a, Int b => Int (a + b)
  | _, _ => Float (toR x + toR y)
  end.

Definition sub (x y : num) : num :=
  match x, y with
  | Int a, Int b => Int (a - b)
  | _, _ => Float (toR x - toR y)
  end.

Definition mul (x y : num) : num :=
  match x, y with
  | Int a, Int b => Int (a * b)
  | _, _ => Float (toR x * toR y)
  end.

(** [x ** 2] *)
Definition pow2 (x : num) : num :=
  match x with
  | Int a => Int (a ^ 2)
  | Float r => Float (r ^ 2)
  end.

(** [x / y] of Python 2: floor division on two ints, true division as soon
    as one operand is a float; a zero divisor raises in both cases. *)
Definition div (x y : num) : result num :=
  match x, y with
  | Int a, Int b =>
      if Z.eq_dec b 0 then Raise ZeroDivisionError else Ok (Int (a / b))
  | _, _ =>
      if Req_dec_T (toR y) 0 then Raise ZeroDivisionError
      else Ok (Float (toR x / toR y))
  end.

(** [math.sqrt] *)
Definition sqrt (x : num) : result num :=
  if Rlt_dec (toR x) 0 then Raise ValueError
  else Ok (Float (R_sqrt.sqrt (toR x))).

(** The builtin [sum]: starts from the int [0] and adds from the left. *)
Definition sum (l : list num) : num := fold_left add l (Int 0).

(** The builtin [len]. *)
Definition len {A : Type} (l : list A) : num := Int (Z.of_nat (length l)).

End Py.

Import Py.

(** ** The program *)

(** [class sampled_value]: [quantity] and [variance] are scalars, [samples]
    is an [int], [unit] an opaque tag or [None]. *)
Record sampled_value : Type := mk_sampled_value {
  quantity : num;
  variance : num;
  samples : Z;
  unit : option string
}.

(** [sampled_value.__init__]: [samples] defaults to [1], [unit] to [None]. *)
Definition new_sampled_value (quantity variance : num) (samples : option Z)
  (unit : option string) : sampled_value :=
  mk_sampled_value quantity variance
    (match samples with Some n => n | None => 1%Z end) unit.

(** [sampled_value.__iter__] *)
Definition sampled_value_iter (A : sampled_value)
  : num * num * num * option string :=
  (quantity A, variance A, Int (samples A), unit A).

(** [unpack_tuple(f)]: calls [f] with the four fields of its argument. *)
Definition unpack_tuple {B : Type}
  (f : num -> num -> num -> option string -> B) : sampled_value -> B :=
  fun args => let '(u_i, v_i, n_i, t_i) := sampled_value_iter args in
              f u_i v_i n_i t_i.

Definition arithmetic_mean (X : list num) : result num :=
  div (sum X) (len X).

Definition sample_variance (X : list num) (u : option num) : result num :=
  u <- default u (arithmetic_mean X) ;;
  div (sum (map (fun X_i => pow2 (sub X_i u)) X)) (sub (len X) (Int 1)).

Definition sample_standard_deviation (X : list num) (u v : option num)
  : result num :=
  u <- default u (arithmetic_mean X) ;;
  v <- default v (sample_variance X (Some u)) ;;
  Py.sqrt v.

Definition combined_sample_size (As : list sampled_value) : num :=
  sum (map (unpack_tuple (fun u_i v_i n_i t_i => n_i)) As).

Definition combined_arithmetic_mean (As : list sampled_value) (n : option num)
  : result num :=
  n <- default n (Ok (combined_sample_size As)) ;;
  div (sum (map (unpack_tuple (fun u_i v_i n_i t_i => mul n_i u_i)) As)) n.

Definition combined_sample_variance (As : list sampled_value)
  (n u : option num) : result num :=
  n <- default n (Ok (combined_sample_size As)) ;;
  u <- default u (combined_arithmetic_mean As (Some n)) ;;
  div (sum (map (unpack_tuple (fun u_i v_i n_i t_i =>
         add (mul n_i (pow2 (sub u_i u))) (mul v_i (sub n_i (Int 1))))) As))
      (sub n (Int 1)).

Definition combined_sample_standard_deviation (As : list sampled_value)
  (n u v : option num) : result num :=
  n <- default n (Ok (combined_sample_size As)) ;;
  u <- default u (combined_arithmetic_mean As (Some n)) ;;
  v <- default v (combined_sample_variance As (Some n) (Some u)) ;;
  Py.sqrt v.

(** ** Vocabulary of the statements *)

(** The sum of a list of reals. *)
Definition Rsum (l : list R) : R := fold_right Rplus 0 l.

(** The sum of a list of integers. *)
Definition Zsum (l : list Z) : Z := fold_right Z.add 0%Z l.

(** [raises e c]: the computation [c] ends with the exception [e]. *)
Definition raises {A : Type} (e : exn) (c : result A) : Prop := c = Raise e.

(** The mean, the sum of squared deviations from [m] and the unbiased
    variance about [m] of a list of reals. *)
Definition Rmean (X : list R) : R := Rsum X / INR (length X).

Definition Rsq_dev (m : R) (X : list R) : R :=
  Rsum (map (fun x => (x - m) ^ 2) X).

Definition Rvariance_about (m : R) (X : list R) : R :=
  Rsq_dev m X / (INR (length X) - 1).

(** A summary whose mean is a float, as the means of the data model are;
    its variance may be a float or an int (such as a conventional [0]). *)
Definition float_mean (A : sampled_value) : Prop :=
  is_int (quantity A) = false.


(** Two summaries that agree on everything but their unit. *)
Definition same_statistics (A B : sampled_value) : Prop :=
  quantity A = quantity B /\ variance A = variance B /\ samples A = samples B.

(** The sample count a combination function works with: the supplied [n],
    else the sum of the sample counts. *)
Definition count_in_use (As : list sampled_value) (n : option Z) : Z :=
  match n with
  | Some z => z
  | None => Zsum (map samples As)
  end.

(** [sum(n_i * u_i)] over the reals. *)
Definition weighted_sum (As : list sampled_value) : R :=
  Rsum (map (fun A => IZR (samples A) * toR (quantity A)) As).

(** [sum(n_i * (u_i - u)^2 + v_i * (n_i - 1))] over the reals. *)
Definition pooled_sq_dev (As : list sampled_value) (u : R) : R :=
  Rsum (map (fun A => IZR (samples A) * (toR (quantity A) - u) ^ 2
                      + toR (variance A) * (IZR (samples A) - 1)) As).

(** The summary of one group of observations, built as the script builds
    [a_sv] and [b_sv]:
    [sampled_value(arithmetic_mean(a), sample_variance(a), len(a))].
    A group of a single observation, whose sample variance is undefined,
    carries the variance [0.0] by the convention of the data model. *)
Definition summarise (X : list num) : result sampled_value :=
  u <- arithmetic_mean X ;;
  v <- (if Nat.eqb (length X) 1 then Ok (Float 0)
        else sample_variance X None) ;;
  Ok (mk_sampled_value u v (Z.of_nat (length X)) None).

(** The summary [summarise] builds from a non-empty group of reals. *)
Definition summary_of (g : list R) : sampled_value :=
  mk_sampled_value
    (Float (Rmean g))
    (Float (if Nat.eqb (length g) 1 then 0
            else Rvariance_about (Rmean g) g))
    (Z.of_nat (length g))
    None.

Fixpoint mapM {A B : Type} (f : A -> result B) (l : list A) : result (list B) :=
  match l with
  | [] => Ok []
  | x :: l' => y <- f x ;; ys <- mapM f l' ;; Ok (y :: ys)
  end.

(** ** The program on binary64 floats

    The same program once more, with a [float] read as the interpreter has
    it: an IEEE 754 binary64 number, every operation rounded to nearest,
    ties to even.  Infinities and NaN propagate as in the C library, and the
    places where Python raises instead are modelled: a zero divisor
    ([ZeroDivisionError]), the square root of a negative number
    ([ValueError]), a square that overflows and an int too large to convert
    ([OverflowError]).  This reading is used to evaluate the program on
    concrete inputs, where rounding shows. *)

Module IEEE.

Import PrimFloat.

Inductive num : Type :=
| Int (z : Z)
| Float (f : float).

(** The conversion of an int operand of a float operation: the nearest
    double, ties to even; [OverflowError] when it is out of range. *)
Definition of_int (z : Z) : result float :=
  let f := FloatOps.SF2Prim
             (SpecFloat.binary_normalize FloatOps.prec FloatOps.emax
                z 0 false) in
  if is_infinity f then Raise OverflowError else Ok f.

Definition to_float (x : num) : result float :=
  match x with
  | Int z => of_int z
  | Float f => Ok f
  end.

(** A binary operator: on two ints the int operation, otherwise the float
    operation on the converted operands. *)
Definition arith (iop : Z -> Z -> Z) (fop : float -> float -> float)
  (x y : num) : result num :=
  match x, y with
  | Int a, Int b => Ok (Int (iop a b))
  | _, _ => a <- to_float x ;; b <- to_float y ;; Ok (Float (fop a b))
  end.

Definition add : num -> num -> result num := arith Z.add PrimFloat.add.

Definition sub : num -> num -> result num := arith Z.sub PrimFloat.sub.

Definition mul : num -> num -> result num := arith Z.mul PrimFloat.mul.

(** [x ** 2]: the square, taken as the C library's [pow] gives it for the
    exponent [2], correctly rounded; a finite float whose square is not
    finite raises [OverflowError]. *)
Definition pow2 (x : num) : result num :=
  match x with
  | Int a => Ok (Int (a ^ 2))
  | Float f =>
      let r := PrimFloat.mul f f in
      if is_infinity r && is_finite f then Raise OverflowError
      else Ok (Float r)
  end.

(** [x / y] of Python 2: floor division on two ints, float division
    otherwise; a divisor equal to zero ([0], [0.0] or [-0.0]) raises. *)
Definition div (x y : num) : result num :=
  match x, y with
  | Int a, Int b =>
      if Z.eq_dec b 0 then Raise ZeroDivisionError else Ok (Int (a / b))
  | _, _ =>
      a <- to_float x ;;
      b <- to_float y ;;
      if is_zero b then Raise ZeroDivisionError
      else Ok (Float (PrimFloat.div a b))
  end.

(** [math.sqrt]: a NaN result on an argument that is not NaN is a domain
    error. *)
Definition sqrt (x : num) : result num :=
  a <- to_float x ;;
  let r := PrimFloat.sqrt a in
  if is_nan r && negb (is_nan a) then Raise ValueError
  else Ok (Float r).

(** [sum(imap(f, l))]: from the int [0], each term computed and added in
    turn, from the left. *)
Fixpoint sum_imap_from {A : Type} (f : A -> result num) (acc : num)
  (l : list A) : result num :=
  match l with
  | [] => Ok acc
  | x :: l' =>
      v <- f x ;; acc' <- add acc v ;; sum_imap_from f acc' l'
  end.

Definition sum_imap {A : Type} (f : A -> result num) (l : list A)
  : result num :=
  sum_imap_from f (Int 0) l.

Definition sum (l : list num) : result num := sum_imap (fun x => Ok x) l.

Definition len {A : Type} (l : list A) : num := Int (Z.of_nat (length l)).

Record sampled_value : Type := mk_sampled_value {
  quantity : num;
  variance : num;
  samples : Z;
  unit : option string
}.

Definition sampled_value_iter (A : sampled_value)
  : num * num * num * option string :=
  (quantity A, variance A, Int (samples A), unit A).

Definition unpack_tuple {B : Type}
  (f : num -> num -> num -> option string -> B) : sampled_value -> B :=
  fun args => let '(u_i, v_i, n_i, t_i) := sampled_value_iter args in
              f u_i v_i n_i t_i.

Definition arithmetic_mean (X : list num) : result num :=
  s <- sum X ;; div s (len X).

Definition sample_variance (X : list num) (u : option num) : result num :=
  u <- default u (arithmetic_mean X) ;;
  s <- sum_imap (fun X_i => d <- sub X_i u ;; pow2 d) X ;;
  m <- sub (len X) (Int 1) ;;
  div s m.

Definition sample_standard_deviation (X : list num) (u v : option num)
  : result num :=
  u <- default u (arithmetic_mean X) ;;
  v <- default v (sample_variance X (Some u)) ;;
  sqrt v.

Definition combined_sample_size (As : list sampled_value) : result num :=
  sum_imap (unpack_tuple (fun u_i v_i n_i t_i => Ok n_i)) As.

Definition combined_arithmetic_mean (As : list sampled_value)
  (n : option num) : result num :=
  n <- default n (combined_sample_size As) ;;
  s <- sum_imap (unpack_tuple (fun u_i v_i n_i t_i => mul n_i u_i)) As ;;
  div s n.

Definition combined_sample_variance (As : list sampled_value)
  (n u : option num) : result num :=
  n <- default n (combined_sample_size As) ;;
  u <- default u (combined_arithmetic_mean As (Some n)) ;;
  s <- sum_imap (unpack_tuple (fun u_i v_i n_i t_i =>
         d <- sub u_i u ;;
         q <- pow2 d ;;
         between <- mul n_i q ;;
         m <- sub n_i (Int 1) ;;
         within <- mul v_i m ;;
         add between within)) As ;;
  m <- sub n (Int 1) ;;
  div s m.

Definition combined_sample_standard_deviation (As : list sampled_value)
  (n u v : option num) : result num :=
  n <- default n (combined_sample_size As) ;;
  u <- default u (combined_arithmetic_mean As (Some n)) ;;
  v <- default v (combined_sample_variance As (Some n) (Some u)) ;;
  sqrt v.

End IEEE.

(** ** Arithmetic of Python numbers *)

Section NumFacts.

Lemma toR_add (x y : num) : toR (add x y) = toR x + toR y.
Proof. destruct x, y; simpl; try reflexivity. apply plus_IZR. Qed.

Lemma toR_sub (x y : num) : toR (sub x y) = toR x - toR y.
Proof. destruct x, y; simpl; try reflexivity. apply minus_IZR. Qed.

Lemma toR_mul (x y : num) : toR (mul x y) = toR x * toR y.
Proof. destruct x, y; simpl; try reflexivity. apply mult_IZR. Qed.

Lemma toR_pow2 (x : num) : toR (pow2 x) = toR x ^ 2.
Proof.
  destruct x as [z|r]; [|reflexivity].
  unfold pow2, toR. rewrite Z.pow_2_r, mult_IZR. ring.
Qed.

Lemma is_int_add (x y : num) : is_int (add x y) = is_int x && is_int y.
Proof. destruct x, y; reflexivity. Qed.

Lemma is_int_sub (x y : num) : is_int (sub x y) = is_int x && is_int y.
Proof. destruct x, y; reflexivity. Qed.

Lemma is_int_mul (x y : num) : is_int (mul x y) = is_int x && is_int y.
Proof. destruct x, y; reflexivity. Qed.

Lemma is_int_pow2 (x : num) : is_int (pow2 x) = is_int x.
Proof. destruct x; reflexivity. Qed.

(** A number is determined by its kind and its value. *)
Lemma num_ext (x y : num) : is_int x = is_int y -> toR x = toR y -> x = y.
Proof.
  destruct x, y; simpl; intros Hk Hv; try discriminate.
  - f_equal. now apply eq_IZR.
  - now f_equal.
Qed.

Lemma toR_len {A : Type} (l : list A) : toR (len l) = INR (length l).
Proof. unfold len; simpl. symmetry. apply INR_IZR_INZ. Qed.

Lemma toR_fold_add (l : list num) (a : num) :
  toR (fold_left add l a) = toR a + Rsum (map toR l).
Proof.
  revert a. induction l as [|x l IH]; intros a; simpl.
  - ring.
  - rewrite IH, toR_add. ring.
Qed.

Lemma is_int_fold_add (l : list num) (a : num) :
  is_int (fold_left add l a) = is_int a && forallb is_int l.
Proof.
  revert a. induction l as [|x l IH]; intros a; simpl.
  - now rewrite andb_true_r.
  - rewrite IH, is_int_add. now rewrite andb_assoc.
Qed.

Lemma toR_sum (l : list num) : toR (sum l) = Rsum (map toR l).
Proof. unfold sum. rewrite toR_fold_add. simpl. ring. Qed.

Lemma is_int_sum (l : list num) : is_int (sum l) = forallb is_int l.
Proof. unfold sum. now rewrite is_int_fold_add. Qed.

(** The sum of a non-empty list of floats is the float of their sum. *)
Lemma sum_Float (X : list R) :
  X <> [] -> sum (map Float X) = Float (Rsum X).
Proof.
  intros Hne. apply num_ext.
  - rewrite is_int_sum. destruct X; [congruence | reflexivity].
  - rewrite toR_sum, map_map. simpl. now rewrite map_id.
Qed.

(** Division by a non-zero divisor, seen through [toR], when a float is
    involved. *)
Lemma div_Float_l (r : R) (y : num) :
  toR y <> 0 -> div (Float r) y = Ok (Float (r / toR y)).
Proof.
  intros Hy. unfold div. simpl.
  destruct y; destruct (Req_dec_T _ 0); simpl in *; congruence.
Qed.

(** Any division by the int [0] raises. *)
Lemma div_zero (x : num) : div x (Int 0) = Raise ZeroDivisionError.
Proof.
  destruct x; simpl.
  - reflexivity.
  - destruct (Req_dec_T 0 0); congruence.
Qed.

(** A division raises exactly when the divisor is zero. *)
Lemma div_raises_iff (x y : num) (e : exn) :
  raises e (div x y) <-> (e = ZeroDivisionError /\ toR y = 0).
Proof.
  unfold raises, div.
  destruct x as [a|r], y as [b|s]; simpl;
    repeat match goal with
           | |- context [Z.eq_dec ?b 0] => destruct (Z.eq_dec b 0)
           | |- context [Req_dec_T ?b 0] => destruct (Req_dec_T b 0)
           end; subst; split; intros H;
    try discriminate; try (inversion H; subst; now split);
    try (destruct H as [-> _]; reflexivity);
    try (destruct H as [_ H]; try contradiction).
  apply eq_IZR in H. contradiction.
Qed.

Lemma div_ok (x y : num) : toR y <> 0 -> exists r, div x y = Ok r.
Proof.
  intros Hy. destruct (div x y) eqn:E; [eauto|].
  assert (H : raises e (div x y)) by exact E.
  apply div_raises_iff in H. tauto.
Qed.


End NumFacts.

(** ** Sums *)

Section SumFacts.

Lemma Rsum_app (l1 l2 : list R) : Rsum (l1 ++ l2) = Rsum l1 + Rsum l2.
Proof. induction l1 as [|x l1 IH]; simpl; [ring | rewrite IH; ring]. Qed.

Lemma Rsum_nonneg (l : list R) : Forall (fun x => 0 <= x) l -> 0 <= Rsum l.
Proof. induction 1; simpl; lra. Qed.

Lemma Rsum_repeat (v : R) (k : nat) : Rsum (repeat v k) = INR k * v.
Proof.
  induction k as [|k IH]; [simpl; ring|].
  rewrite S_INR. simpl. rewrite IH. ring.
Qed.

Lemma Rsum_perm (l1 l2 : list R) : Permutation l1 l2 -> Rsum l1 = Rsum l2.
Proof. induction 1; simpl; lra. Qed.

(** Summing the images of a non-empty list of floats under a map that
    sends floats to floats. *)
Lemma sum_map_Float (g : num -> num) (f : R -> R) (X : list R) :
  X <> [] -> (forall x, g (Float x) = Float (f x)) ->
  sum (map g (map Float X)) = Float (Rsum (map f X)).
Proof.
  intros Hne Hg. rewrite map_map.
  rewrite (map_ext _ (fun x => Float (f x))) by exact Hg.
  rewrite <- (map_map f Float). apply sum_Float.
  destruct X; [congruence | discriminate].
Qed.

Lemma INR_length_neq0 {A : Type} (l : list A) : l <> [] -> INR (length l) <> 0.
Proof.
  intros Hne. apply not_0_INR. destruct l; [congruence | discriminate].
Qed.

End SumFacts.

(** ** Base statistics *)

Lemma arithmetic_mean_Float (X : list R) :
  X <> [] -> arithmetic_mean (map Float X) = Ok (Float (Rmean X)).
Proof.
  intros Hne. unfold arithmetic_mean. rewrite sum_Float by assumption.
  rewrite div_Float_l; rewrite toR_len, length_map.
  - reflexivity.
  - now apply INR_length_neq0.
Qed.

Lemma sample_variance_Float (X : list R) (m : num) :
  (2 <= length X)%nat ->
  sample_variance (map Float X) (Some m) =
  Ok (Float (Rvariance_about (toR m) X)).
Proof.
  intros Hlen. unfold sample_variance. cbn [default bind].
  assert (Hne : X <> []) by (destruct X; [simpl in Hlen; lia | discriminate]).
  rewrite (sum_map_Float _ (fun x => (x - toR m) ^ 2)); [|assumption|].
  - rewrite div_Float_l; rewrite toR_sub, toR_len, length_map; simpl.
    + reflexivity.
    + apply le_INR in Hlen. simpl in Hlen. lra.
  - intros x. destruct m; reflexivity.
Qed.

Lemma sample_variance_Float_mean (X : list R) :
  (2 <= length X)%nat ->
  sample_variance (map Float X) None =
  Ok (Float (Rvariance_about (Rmean X) X)).
Proof.
  intros Hlen.
  assert (Hne : X <> []) by (destruct X; [simpl in Hlen; lia | discriminate]).
  transitivity (sample_variance (map Float X) (Some (Float (Rmean X)))).
  - unfold sample_variance. cbn [default bind].
    now rewrite arithmetic_mean_Float.
  - now rewrite sample_variance_Float.
Qed.

(** C6, amended: on a non-empty sequence [arithmetic_mean] returns the sum
    divided by the length, and on the empty sequence it raises
    [ZeroDivisionError].  Over the reals the mean is therefore exactly [v]
    when every element is [v]; on binary64 floats it can differ from [v] by
    rounding (see [arithmetic_mean_repeated_value_rounds]). *)
Theorem arithmetic_mean_spec (X : list R) (Hne : X <> []) :
  arithmetic_mean (map Float X) = Ok (Float (Rsum X / INR (length X)))
  /\ (forall v : R, X = repeat v (length X) ->
        arithmetic_mean (map Float X) = Ok (Float v))
  /\ raises ZeroDivisionError (arithmetic_mean []).
Proof.
  split; [|split].
  - now apply arithmetic_mean_Float.
  - intros v Hv. rewrite arithmetic_mean_Float by assumption.
    unfold Rmean. rewrite Hv at 1. rewrite Rsum_repeat.
    do 2 f_equal. field. now apply INR_length_neq0.
  - unfold raises, arithmetic_mean. apply div_zero.
Qed.

Lemma arithmetic_mean_spec_witness :
  [3; 5] <> [] /\
  arithmetic_mean (map Float [3; 5]) = Ok (Float (Rsum [3; 5] / INR 2)).
Proof.
  split; [discriminate|].
  exact (proj1 (arithmetic_mean_spec [3; 5] ltac:(discriminate))).
Defined.

(** Outside the data model: on a list of ints the division of
    [arithmetic_mean] is the floor division of Python 2. *)
Example arithmetic_mean_of_ints :
  arithmetic_mean [Int 1; Int 2] = Ok (Int 1).
Proof. reflexivity. Qed.





(** ** Combination algebra: the sums it takes *)

Section CombinationSums.

Lemma forallb_perm {A : Type} (p : A -> bool) (l1 l2 : list A) :
  Permutation l1 l2 -> forallb p l1 = forallb p l2.
Proof.
  induction 1 as [|x l1 l2 _ IH|x y l|l1 l2 l3 _ IH1 _ IH2]; simpl.
  - reflexivity.
  - now rewrite IH.
  - destruct (p x), (p y); reflexivity.
  - now rewrite IH1.
Qed.

(** The builtin [sum] does not depend on the order of its terms. *)
Lemma sum_perm (l1 l2 : list num) : Permutation l1 l2 -> sum l1 = sum l2.
Proof.
  intros HP. apply num_ext.
  - rewrite !is_int_sum. now apply forallb_perm.
  - rewrite !toR_sum. apply Rsum_perm. now apply Permutation_map.
Qed.

(** A non-empty sum of floats is a float. *)
Lemma sum_floats (l : list num) :
  l <> [] -> Forall (fun x => is_int x = false) l ->
  sum l = Float (Rsum (map toR l)).
Proof.
  intros Hne Hfl. apply num_ext.
  - rewrite is_int_sum. destruct Hfl as [|x l Hx _]; [congruence|].
    simpl. now rewrite Hx.
  - now rewrite toR_sum.
Qed.

Lemma IZR_Zsum (l : list Z) : IZR (Zsum l) = Rsum (map IZR l).
Proof.
  induction l as [|z l IH]; simpl; [reflexivity|].
  now rewrite plus_IZR, IH.
Qed.

Lemma combined_sample_size_Int (As : list sampled_value) :
  combined_sample_size As = Int (Zsum (map samples As)).
Proof.
  unfold combined_sample_size. apply num_ext.
  - rewrite is_int_sum. apply forallb_forall.
    intros y Hy. apply in_map_iff in Hy. now destruct Hy as [A [<- _]].
  - rewrite toR_sum. simpl. rewrite IZR_Zsum, !map_map. reflexivity.
Qed.

Lemma default_count (As : list sampled_value) (n : option Z) :
  default (option_map Int n) (Ok (combined_sample_size As)) =
  Ok (Int (count_in_use As n)).
Proof.
  destruct n; simpl; [reflexivity|]. now rewrite combined_sample_size_Int.
Qed.

Lemma weighted_terms_Float (As : list sampled_value) :
  As <> [] -> Forall float_mean As ->
  sum (map (unpack_tuple (fun u_i v_i n_i t_i => mul n_i u_i)) As) =
  Float (weighted_sum As).
Proof.
  intros Hne Hfl. rewrite sum_floats.
  - unfold weighted_sum. rewrite map_map. do 2 f_equal.
    apply map_ext. intros A. unfold unpack_tuple, sampled_value_iter.
    now rewrite toR_mul.
  - destruct As; [congruence | discriminate].
  - apply Forall_map. eapply Forall_impl; [|exact Hfl].
    intros A Hq. unfold float_mean in Hq.
    unfold unpack_tuple, sampled_value_iter.
    now rewrite is_int_mul, Hq.
Qed.

Lemma pooled_terms_Float (As : list sampled_value) (u : num) :
  As <> [] -> Forall float_mean As ->
  sum (map (unpack_tuple (fun u_i v_i n_i t_i =>
         add (mul n_i (pow2 (sub u_i u))) (mul v_i (sub n_i (Int 1))))) As) =
  Float (pooled_sq_dev As (toR u)).
Proof.
  intros Hne Hfl. rewrite sum_floats.
  - unfold pooled_sq_dev. rewrite map_map. do 2 f_equal.
    apply map_ext. intros A. unfold unpack_tuple, sampled_value_iter.
    rewrite toR_add, !toR_mul, toR_pow2, !toR_sub. reflexivity.
  - destruct As; [congruence | discriminate].
  - apply Forall_map. eapply Forall_impl; [|exact Hfl].
    intros A Hq. unfold float_mean in Hq.
    unfold unpack_tuple, sampled_value_iter.
    rewrite is_int_add, !is_int_mul, is_int_pow2, is_int_sub, Hq.
    reflexivity.
Qed.


End CombinationSums.

(** Sample counts [8] and [5] combine to [13]; no summary combines to [0]. *)
Example combined_sample_size_8_5 :
  combined_sample_size [mk_sampled_value (Float 4) (Float 1) 8 None;
                        mk_sampled_value (Float 2) (Float 3) 5 None]
  = Int 13.
Proof. reflexivity. Qed.

Example combined_sample_size_empty : combined_sample_size [] = Int 0.
Proof. reflexivity. Qed.

(** ** Combination algebra: order and units *)

(** C4: on a permutation of the list of summaries each of the four
    combination functions returns the same result, whatever optional
    arguments are supplied. *)
Theorem combination_order_independent (As Bs : list sampled_value)
  (HP : Permutation As Bs) :
  combined_sample_size As = combined_sample_size Bs
  /\ (forall n, combined_arithmetic_mean As n = combined_arithmetic_mean Bs n)
  /\ (forall n u,
        combined_sample_variance As n u = combined_sample_variance Bs n u)
  /\ (forall n u v,
        combined_sample_standard_deviation As n u v =
        combined_sample_standard_deviation Bs n u v).
Proof.
  assert (Hsum : forall f : sampled_value -> num,
             sum (map f As) = sum (map f Bs)).
  { intros f. apply sum_perm. now apply Permutation_map. }
  assert (Hsize : combined_sample_size As = combined_sample_size Bs).
  { apply Hsum. }
  assert (Hmean : forall n,
             combined_arithmetic_mean As n = combined_arithmetic_mean Bs n).
  { intros n. unfold combined_arithmetic_mean. now rewrite Hsize, Hsum. }
  assert (Hvar : forall n u,
             combined_sample_variance As n u = combined_sample_variance Bs n u).
  { intros n u. unfold combined_sample_variance. rewrite Hsize.
    destruct (default n (Ok (combined_sample_size Bs))) as [n'|e];
      [|reflexivity].
    cbn [bind]. rewrite Hmean.
    destruct (default u (combined_arithmetic_mean Bs (Some n'))) as [u'|e];
      [|reflexivity].
    cbn [bind]. now rewrite Hsum. }
  repeat split; try assumption.
  intros n u v. unfold combined_sample_standard_deviation. rewrite Hsize.
  destruct (default n (Ok (combined_sample_size Bs))) as [n'|e];
    [|reflexivity].
  cbn [bind]. rewrite Hmean.
  destruct (default u (combined_arithmetic_mean Bs (Some n'))) as [u'|e];
    [|reflexivity].
  cbn [bind]. now rewrite Hvar.
Qed.

Lemma combination_order_independent_witness :
  let A := mk_sampled_value (Float 4) (Float 1) 8 None in
  let B := mk_sampled_value (Float 2) (Float 3) 5 None in
  Permutation [A; B] [B; A] /\
  combined_sample_variance [A; B] None None =
  combined_sample_variance [B; A] None None.
Proof.
  intros A B. split; [apply perm_swap|].
  exact (proj1 (proj2 (proj2
    (combination_order_independent [A; B] [B; A] (perm_swap B A []))))
    None None).
Defined.

(** C9: the combination functions do not read the unit: on two lists of
    summaries that agree on every quantity, variance and sample count they
    return identical results. *)
Theorem combination_ignores_unit (As Bs : list sampled_value)
  (Hsame : Forall2 same_statistics As Bs) :
  combined_sample_size As = combined_sample_size Bs
  /\ (forall n, combined_arithmetic_mean As n = combined_arithmetic_mean Bs n)
  /\ (forall n u,
        combined_sample_variance As n u = combined_sample_variance Bs n u)
  /\ (forall n u v,
        combined_sample_standard_deviation As n u v =
        combined_sample_standard_deviation Bs n u v).
Proof.
  assert (Hmap : forall f : num -> num -> num -> option string -> num,
             (forall u v n t t', f u v n t = f u v n t') ->
             map (unpack_tuple f) As = map (unpack_tuple f) Bs).
  { intros f Hf. induction Hsame as [|A B As' Bs' HAB _ IH]; simpl.
    - reflexivity.
    - f_equal; [|exact IH].
      destruct HAB as (Hq & Hv & Hn). unfold unpack_tuple, sampled_value_iter.
      rewrite Hq, Hv, Hn. apply Hf. }
  assert (Hsize : combined_sample_size As = combined_sample_size Bs).
  { unfold combined_sample_size. now rewrite Hmap. }
  assert (Hmean : forall n,
             combined_arithmetic_mean As n = combined_arithmetic_mean Bs n).
  { intros n. unfold combined_arithmetic_mean. rewrite Hsize.
    now rewrite Hmap. }
  assert (Hvar : forall n u,
             combined_sample_variance As n u = combined_sample_variance Bs n u).
  { intros n u. unfold combined_sample_variance. rewrite Hsize.
    destruct (default n (Ok (combined_sample_size Bs))) as [n'|e];
      [|reflexivity].
    cbn [bind]. rewrite Hmean.
    destruct (default u (combined_arithmetic_mean Bs (Some n'))) as [u'|e];
      [|reflexivity].
    cbn [bind]. now rewrite Hmap. }
  repeat split; try assumption.
  intros n u v. unfold combined_sample_standard_deviation. rewrite Hsize.
  destruct (default n (Ok (combined_sample_size Bs))) as [n'|e];
    [|reflexivity].
  cbn [bind]. rewrite Hmean.
  destruct (default u (combined_arithmetic_mean Bs (Some n'))) as [u'|e];
    [|reflexivity].
  cbn [bind]. now rewrite Hvar.
Qed.

Lemma combination_ignores_unit_witness :
  let A := mk_sampled_value (Float 4) (Float 1) 8 (Some "s"%string) in
  let B := mk_sampled_value (Float 4) (Float 1) 8 (Some "ms"%string) in
  Forall2 same_statistics [A] [B] /\
  combined_sample_standard_deviation [A] None None None =
  combined_sample_standard_deviation [B] None None None.
Proof.
  intros A B.
  assert (H : Forall2 same_statistics [A] [B]).
  { constructor; [|constructor]. repeat split. }
  split; [exact H|].
  exact (proj2 (proj2 (proj2 (combination_ignores_unit [A] [B] H)))
           None None None).
Defined.

(** ** Combination algebra: a single summary *)

(** C5, amended: over the reals, combining the one-element list made of a
    summary with at least two samples gives back the summary's own
    statistics: the combined mean is its mean, the combined variance is
    numerically its variance, and is its variance itself when that is a
    float.  On binary64 floats [n * u / n] and [v * (n - 1) / (n - 1)] can
    differ from [u] and [v] by rounding (see [trivial_grouping_rounds]). *)
Theorem trivial_grouping (A : sampled_value) (Hn : (2 <= samples A)%Z) :
  combined_arithmetic_mean [A] None = Ok (quantity A)
  /\ (exists v, combined_sample_variance [A] None None = Ok v
                /\ toR v = toR (variance A))
  /\ (is_int (variance A) = false ->
      combined_sample_variance [A] None None = Ok (variance A)).
Proof.
  destruct A as [q v n t]. cbn [samples quantity variance] in *.
  assert (Hnz : IZR n <> 0) by (intros E; apply eq_IZR in E; lia).
  assert (Hn1 : IZR n - 1 <> 0).
  { rewrite <- minus_IZR. intros E; apply eq_IZR in E; lia. }
  assert (Hmean : combined_arithmetic_mean [mk_sampled_value q v n t] None = Ok q).
  { unfold combined_arithmetic_mean, combined_sample_size, unpack_tuple,
      sampled_value_iter, sum.
    cbn [default bind map fold_left quantity variance samples unit].
    destruct q as [a|r]; cbn [mul add div toR].
    - destruct (Z.eq_dec (0 + n) 0); [lia|].
      do 2 f_equal. rewrite !Z.add_0_l, Z.mul_comm. apply Z.div_mul. lia.
    - rewrite Z.add_0_l. destruct (Req_dec_T (IZR n) 0); [contradiction|].
      do 2 f_equal. field. assumption. }
  split; [exact Hmean|].
  assert (Hvar : exists v',
             combined_sample_variance [mk_sampled_value q v n t] None None
             = Ok v'
             /\ toR v' = toR v /\ (is_int v = false -> v' = v)).
  2:{ destruct Hvar as (v' & Hv' & Hval & Hex). split; [eauto|].
      intros Hfl. rewrite Hv'. f_equal. auto. }
  unfold combined_sample_variance. cbn [default bind].
  change (combined_arithmetic_mean ?l (Some (combined_sample_size ?l)))
    with (combined_arithmetic_mean l None).
  rewrite Hmean. cbn [bind].
  unfold combined_sample_size, unpack_tuple, sampled_value_iter, sum.
  cbn [map fold_left quantity variance samples unit].
  destruct q as [a|r], v as [b|s]; cbn [mul add sub pow2 div toR is_int];
    rewrite ?Z.add_0_l;
    repeat match goal with
           | |- context [Z.eq_dec ?b 0] => destruct (Z.eq_dec b 0); [lia|]
           | |- context [Req_dec_T ?b 0] =>
               destruct (Req_dec_T b 0) as [E|E];
               [rewrite ?minus_IZR in E; contradiction|]
           end;
    eexists; (split; [reflexivity|]); cbn [toR].
  - rewrite Z.sub_diag. change (0 ^ 2)%Z with 0%Z.
    rewrite Z.mul_0_r, Z.add_0_l, Z.div_mul by assumption.
    split; [reflexivity | discriminate].
  - rewrite Z.sub_diag. change (0 ^ 2)%Z with 0%Z.
    rewrite Z.mul_0_r, minus_IZR.
    split; [|intros _; f_equal]; field; assumption.
  - rewrite mult_IZR, !minus_IZR.
    split; [field; assumption | discriminate].
  - rewrite minus_IZR. split; [|intros _; f_equal]; field; assumption.
Qed.

Lemma trivial_grouping_witness :
  let A := mk_sampled_value (Float 4) (Float 3) 8 None in
  (2 <= samples A)%Z /\
  combined_arithmetic_mean [A] None = Ok (Float 4) /\
  combined_sample_variance [A] None None = Ok (Float 3).
Proof.
  intros A.
  assert (Hn : (2 <= samples A)%Z) by (simpl; lia).
  split; [exact Hn|]. split.
  - exact (proj1 (trivial_grouping A Hn)).
  - exact (proj2 (proj2 (trivial_grouping A Hn)) eq_refl).
Defined.

(** ** Combination algebra: the combined variance *)

Section CombinedVariance.

Variable As : list sampled_value.

(** The last division of [combined_sample_variance], once [n] and [u] are
    known. *)
Lemma combined_sample_variance_known (k u : num) :
  combined_sample_variance As (Some k) (Some u) =
  div (sum (map (unpack_tuple (fun u_i v_i n_i t_i =>
         add (mul n_i (pow2 (sub u_i u))) (mul v_i (sub n_i (Int 1))))) As))
      (sub k (Int 1)).
Proof. reflexivity. Qed.

Lemma combined_sample_variance_bind (n : option Z) (u : option num) :
  combined_sample_variance As (option_map Int n) u =
  (u' <- default u (combined_arithmetic_mean As
                      (Some (Int (count_in_use As n)))) ;;
   combined_sample_variance As (Some (Int (count_in_use As n))) (Some u')).
Proof.
  unfold combined_sample_variance at 1. rewrite default_count. reflexivity.
Qed.

Lemma combined_sample_standard_deviation_bind
  (n : option Z) (u v : option num) :
  combined_sample_standard_deviation As (option_map Int n) u v =
  (u' <- default u (combined_arithmetic_mean As
                      (Some (Int (count_in_use As n)))) ;;
   v' <- default v (combined_sample_variance As
                      (Some (Int (count_in_use As n))) (Some u')) ;;
   Py.sqrt v').
Proof.
  unfold combined_sample_standard_deviation. rewrite default_count.
  reflexivity.
Qed.

Lemma toR_pred_count (k : Z) : toR (sub (Int k) (Int 1)) = IZR k - 1.
Proof. now rewrite toR_sub. Qed.

Lemma pred_count_zero_iff (k : Z) : toR (sub (Int k) (Int 1)) = 0 <-> k = 1%Z.
Proof.
  rewrite toR_pred_count. split.
  - intros H. apply eq_IZR. lra.
  - intros ->. lra.
Qed.

Lemma IZR_zero_iff (k : Z) : toR (Int k) = 0 <-> k = 0%Z.
Proof.
  simpl. split; [apply eq_IZR | now intros ->].
Qed.

(** The mean step: it raises exactly when it has to divide by zero. *)
Lemma mean_step (k : Z) (u : option num) :
  (k = 0%Z /\ u = None /\
   default u (combined_arithmetic_mean As (Some (Int k)))
   = Raise ZeroDivisionError)
  \/ (~ (k = 0%Z /\ u = None) /\
      exists u', default u (combined_arithmetic_mean As (Some (Int k)))
                 = Ok u').
Proof.
  destruct u as [u0|]; cbn [default].
  - right. split; [intros [_ H]; discriminate | eauto].
  - unfold combined_arithmetic_mean. cbn [default bind].
    destruct (Z.eq_dec k 0) as [->|Hk].
    + left. repeat split. apply div_zero.
    + right. split; [tauto|]. apply div_ok. now rewrite IZR_zero_iff.
Qed.

End CombinedVariance.




(** The same on a well-formed summary when both [n = 0] and [u] are
    supplied. *)
Example combined_variance_returns_at_supplied_zero :
  let A := mk_sampled_value (Float 2) (Float 0) 1 None in
  exists v,
    combined_sample_variance [A] (Some (Int 0)) (Some (Float 2)) = Ok v.
Proof.
  intros A. rewrite combined_sample_variance_known.
  apply div_ok. simpl. lra.
Qed.



(** C2: on a non-empty list of summaries with float means, worked with a
    sample count [n >= 2], [combined_sample_variance] returns
    [sum(n_i * (u_i - u)^2 + v_i * (n_i - 1)) / (n - 1)], where [n] and [u]
    are the supplied arguments when they are supplied, and otherwise the sum
    of the sample counts and the sample-count-weighted mean. *)
Theorem combined_variance_formula (As : list sampled_value)
  (n : option Z) (u : option num)
  (Hne : As <> []) (Hfl : Forall float_mean As)
  (Hn : (2 <= count_in_use As n)%Z) :
  let n' := match n with
            | Some z => z
            | None => Zsum (map samples As)
            end in
  let u' := match u with
            | Some m => toR m
            | None =>
                Rsum (map (fun A => IZR (samples A) * toR (quantity A)) As)
                / IZR n'
            end in
  combined_sample_variance As (option_map Int n) u =
  Ok (Float
        (Rsum (map (fun A => IZR (samples A) * (toR (quantity A) - u') ^ 2
                             + toR (variance A) * (IZR (samples A) - 1)) As)
         / (IZR n' - 1))).
Proof.
  intros n' u'. change n' with (count_in_use As n) in *.
  set (k := count_in_use As n) in *.
  rewrite combined_sample_variance_bind. fold k.
  assert (Hk1 : IZR k - 1 <> 0) by (apply IZR_le in Hn; lra).
  assert (Hk0 : IZR k <> 0) by (apply IZR_le in Hn; lra).
  assert (Hu : exists m, default u (combined_arithmetic_mean As (Some (Int k)))
                         = Ok m /\ toR m = u').
  { destruct u as [m|]; cbn [default]; [eauto|].
    unfold combined_arithmetic_mean. cbn [default bind].
    rewrite weighted_terms_Float by assumption.
    rewrite div_Float_l by exact Hk0. eexists; split; reflexivity. }
  destruct Hu as (m & -> & Hm). cbn [bind].
  rewrite combined_sample_variance_known.
  rewrite pooled_terms_Float by assumption.
  rewrite div_Float_l by (now rewrite toR_pred_count).
  rewrite toR_pred_count, Hm. reflexivity.
Qed.

Lemma combined_variance_formula_witness :
  let A := mk_sampled_value (Float 4) (Float 1) 8 None in
  let B := mk_sampled_value (Float 2) (Float 3) 5 None in
  [A; B] <> [] /\ Forall float_mean [A; B] /\
  (2 <= count_in_use [A; B] None)%Z /\
  combined_sample_variance [A; B] None None =
  Ok (Float
        ((8 * (4 - (8 * 4 + (5 * 2 + 0)) / 13) ^ 2 + 1 * (8 - 1)
          + (5 * (2 - (8 * 4 + (5 * 2 + 0)) / 13) ^ 2 + 3 * (5 - 1) + 0))
         / (13 - 1))).
Proof.
  intros A B.
  assert (Hne : [A; B] <> []) by discriminate.
  assert (Hfl : Forall float_mean [A; B]).
  { repeat constructor. }
  assert (Hn : (2 <= count_in_use [A; B] None)%Z) by (simpl; lia).
  split; [exact Hne|]. split; [exact Hfl|]. split; [exact Hn|].
  exact (combined_variance_formula [A; B] None None Hne Hfl Hn).
Defined.

(** ** The equivalence law *)

Section SquaredDeviations.

Lemma Rsum_cons (x : R) (l : list R) : Rsum (x :: l) = x + Rsum l.
Proof. reflexivity. Qed.

Lemma Rsq_dev_app (u : R) (l1 l2 : list R) :
  Rsq_dev u (l1 ++ l2) = Rsq_dev u l1 + Rsq_dev u l2.
Proof. unfold Rsq_dev. now rewrite map_app, Rsum_app. Qed.

Lemma Rsq_dev_perm (u : R) (l1 l2 : list R) :
  Permutation l1 l2 -> Rsq_dev u l1 = Rsq_dev u l2.
Proof. intros HP. apply Rsum_perm. now apply Permutation_map. Qed.

Lemma Rsq_dev_nonneg (u : R) (l : list R) : 0 <= Rsq_dev u l.
Proof.
  apply Rsum_nonneg, Forall_forall. intros y Hy.
  apply in_map_iff in Hy. destruct Hy as [x [<- _]]. apply pow2_ge_0.
Qed.

Lemma Rsum_concat (gs : list (list R)) :
  Rsum (concat gs) = Rsum (map Rsum gs).
Proof.
  induction gs as [|g gs IH]; simpl; [reflexivity|].
  now rewrite Rsum_app, IH.
Qed.

Lemma Rsq_dev_concat (u : R) (gs : list (list R)) :
  Rsq_dev u (concat gs) = Rsum (map (Rsq_dev u) gs).
Proof.
  induction gs as [|g gs IH]; simpl; [reflexivity|].
  now rewrite Rsq_dev_app, IH.
Qed.

Lemma length_concat_Zsum {A : Type} (gs : list (list A)) :
  Z.of_nat (length (concat gs)) =
  Zsum (map (fun g => Z.of_nat (length g)) gs).
Proof.
  induction gs as [|g gs IH]; simpl; [reflexivity|].
  rewrite length_app, Nat2Z.inj_add, IH. reflexivity.
Qed.

(** Squared deviations from [u], in terms of the sum and of the sum of
    squares. *)
Lemma Rsq_dev_expand (u : R) (l : list R) :
  Rsq_dev u l =
  Rsum (map (fun x => x ^ 2) l) - 2 * u * Rsum l + INR (length l) * u ^ 2.
Proof.
  unfold Rsq_dev. induction l as [|x l IH].
  - simpl. ring.
  - change (length (x :: l)) with (S (length l)).
    rewrite S_INR, !map_cons, !Rsum_cons, IH. ring.
Qed.

(** The squared deviations from any [u] are those from the mean plus the
    squared distance of the mean to [u], once per element. *)
Lemma Rsq_dev_shift (u : R) (g : list R) :
  g <> [] ->
  Rsq_dev u g =
  Rsq_dev (Rmean g) g + INR (length g) * (Rmean g - u) ^ 2.
Proof.
  intros Hne. pose proof (INR_length_neq0 g Hne) as Hn.
  assert (HS : Rsum g = INR (length g) * Rmean g).
  { unfold Rmean. field. exact Hn. }
  rewrite !Rsq_dev_expand. rewrite HS. ring.
Qed.

(** What one group contributes to the combined variance is its squared
    deviation from the combined mean. *)
Lemma summary_of_sq_dev (u : R) (g : list R) :
  g <> [] ->
  IZR (samples (summary_of g)) * (toR (quantity (summary_of g)) - u) ^ 2
  + toR (variance (summary_of g)) * (IZR (samples (summary_of g)) - 1)
  = Rsq_dev u g.
Proof.
  intros Hne. rewrite (Rsq_dev_shift u g Hne).
  unfold summary_of. cbn [samples quantity variance toR].
  rewrite <- INR_IZR_INZ.
  destruct (Nat.eqb (length g) 1) eqn:E.
  - apply Nat.eqb_eq in E.
    destruct g as [|x [|y g]]; try discriminate.
    unfold Rsq_dev, Rmean. simpl. field.
  - apply Nat.eqb_neq in E.
    assert (Hn1 : INR (length g) - 1 <> 0).
    { intros H. apply E. apply INR_eq. simpl. lra. }
    unfold Rvariance_about. field. exact Hn1.
Qed.

Lemma summary_of_weighted (g : list R) :
  g <> [] ->
  IZR (samples (summary_of g)) * toR (quantity (summary_of g)) = Rsum g.
Proof.
  intros Hne. unfold summary_of. cbn [samples quantity toR].
  rewrite <- INR_IZR_INZ. unfold Rmean. field.
  now apply INR_length_neq0.
Qed.

End SquaredDeviations.

Section Summaries.

Lemma summarise_Float (g : list R) :
  g <> [] -> summarise (map Float g) = Ok (summary_of g).
Proof.
  intros Hne. unfold summarise, summary_of.
  rewrite arithmetic_mean_Float by assumption. cbn [bind].
  rewrite length_map.
  destruct (Nat.eqb (length g) 1) eqn:E; [reflexivity|].
  apply Nat.eqb_neq in E.
  rewrite sample_variance_Float_mean; [reflexivity|].
  destruct g as [|x [|y g]]; simpl in *; try congruence; lia.
Qed.

Lemma mapM_summarise (gs : list (list R)) :
  Forall (fun g => g <> []) gs ->
  mapM summarise (map (map Float) gs) = Ok (map summary_of gs).
Proof.
  induction 1 as [|g gs Hg _ IH]; [reflexivity|].
  cbn [map mapM]. rewrite summarise_Float by assumption. cbn [bind].
  rewrite IH. reflexivity.
Qed.

Lemma summary_of_float_mean (gs : list (list R)) :
  Forall float_mean (map summary_of gs).
Proof.
  apply Forall_map, Forall_forall. intros g _. reflexivity.
Qed.

Lemma summary_of_count (gs : list (list R)) :
  Zsum (map samples (map summary_of gs)) = Z.of_nat (length (concat gs)).
Proof. rewrite length_concat_Zsum, map_map. reflexivity. Qed.

Lemma Rsum_map_ext_in {A : Type} (f g : A -> R) (l : list A) :
  (forall a, In a l -> f a = g a) -> Rsum (map f l) = Rsum (map g l).
Proof. intros H. f_equal. now apply map_ext_in. Qed.

Lemma summary_of_weighted_sum (gs : list (list R)) :
  Forall (fun g => g <> []) gs ->
  weighted_sum (map summary_of gs) = Rsum (concat gs).
Proof.
  intros Hne. unfold weighted_sum. rewrite Rsum_concat, map_map.
  apply Rsum_map_ext_in. intros g Hg. apply summary_of_weighted.
  rewrite Forall_forall in Hne. now apply Hne.
Qed.

Lemma summary_of_pooled (u : R) (gs : list (list R)) :
  Forall (fun g => g <> []) gs ->
  pooled_sq_dev (map summary_of gs) u = Rsq_dev u (concat gs).
Proof.
  intros Hne. unfold pooled_sq_dev. rewrite Rsq_dev_concat, map_map.
  apply Rsum_map_ext_in. intros g Hg. apply summary_of_sq_dev.
  rewrite Forall_forall in Hne. now apply Hne.
Qed.

End Summaries.

(** The combined mean of summaries with float means, for a non-zero count. *)
Lemma combined_arithmetic_mean_Float (As : list sampled_value) (k : Z) :
  As <> [] -> Forall float_mean As -> k <> 0%Z ->
  combined_arithmetic_mean As (Some (Int k)) =
  Ok (Float (weighted_sum As / IZR k)).
Proof.
  intros Hne Hfl Hk. unfold combined_arithmetic_mean. cbn [default bind].
  rewrite weighted_terms_Float by assumption.
  rewrite div_Float_l; [reflexivity|]. now rewrite IZR_zero_iff.
Qed.

(** C1: split a sequence of at least two reals into non-empty groups, in
    any arrangement; summarise each group by its mean, its sample variance
    ([0] for a group of one) and its length.  Then the combined mean of the
    summaries is the mean of the whole sequence, and their combined
    standard deviation is its sample standard deviation. *)
Theorem equivalence_law (X : list R) (groups : list (list R))
  (Hlen : (2 <= length X)%nat)
  (Hne : Forall (fun g => g <> []) groups)
  (Hpart : Permutation (concat groups) X) :
  exists (As : list sampled_value) (m s : num),
    mapM summarise (map (map Float) groups) = Ok As
    /\ arithmetic_mean (map Float X) = Ok m
    /\ combined_arithmetic_mean As None = Ok m
    /\ sample_standard_deviation (map Float X) None None = Ok s
    /\ combined_sample_standard_deviation As None None None = Ok s.
Proof.
  set (As := map summary_of groups).
  set (v := Rvariance_about (Rmean X) X).
  exists As, (Float (Rmean X)), (Float (R_sqrt.sqrt v)).
  assert (HX : X <> []) by (destruct X; [simpl in Hlen; lia | discriminate]).
  assert (HAs : As <> []).
  { subst As. destruct groups; [|discriminate].
    apply Permutation_length in Hpart. simpl in Hpart. lia. }
  pose proof (summary_of_float_mean groups) as Hfl. fold As in Hfl.
  assert (Hcount : count_in_use As None = Z.of_nat (length X)).
  { unfold count_in_use, As. rewrite summary_of_count.
    now rewrite (Permutation_length Hpart). }
  assert (Hk : count_in_use As None <> 0%Z) by (rewrite Hcount; lia).
  assert (Hmean : combined_arithmetic_mean As (Some (Int (count_in_use As None)))
                  = Ok (Float (Rmean X))).
  { rewrite combined_arithmetic_mean_Float by assumption.
    rewrite Hcount, <- INR_IZR_INZ. unfold As.
    rewrite summary_of_weighted_sum by assumption.
    rewrite (Rsum_perm _ _ Hpart). reflexivity. }
  assert (Hv : 0 <= v).
  { unfold v, Rvariance_about. apply Rmult_le_pos.
    - apply Rsq_dev_nonneg.
    - left. apply Rinv_0_lt_compat. apply le_INR in Hlen. simpl in Hlen. lra. }
  assert (Hsqrt : Py.sqrt (Float v) = Ok (Float (R_sqrt.sqrt v))).
  { unfold Py.sqrt. cbn [toR]. destruct (Rlt_dec v 0); [lra | reflexivity]. }
  repeat split.
  - now apply mapM_summarise.
  - now apply arithmetic_mean_Float.
  - unfold combined_arithmetic_mean. cbn [default bind].
    rewrite combined_sample_size_Int. exact Hmean.
  - unfold sample_standard_deviation. cbn [default].
    rewrite arithmetic_mean_Float by assumption. cbn [bind].
    rewrite sample_variance_Float by assumption. cbn [bind toR].
    exact Hsqrt.
  - change (@None num) with (option_map Int None) at 1.
    rewrite combined_sample_standard_deviation_bind.
    cbn [default]. rewrite Hmean. cbn [bind].
    rewrite combined_sample_variance_known.
    rewrite pooled_terms_Float by assumption.
    rewrite div_Float_l; rewrite toR_pred_count, Hcount, <- INR_IZR_INZ.
    + cbn [bind toR]. unfold As.
      rewrite summary_of_pooled by assumption.
      rewrite (Rsq_dev_perm _ _ _ Hpart). exact Hsqrt.
    + apply le_INR in Hlen. simpl in Hlen. lra.
Qed.

Lemma equivalence_law_witness :
  (2 <= length [1; 2; 3])%nat /\
  Forall (fun g : list R => g <> []) [[1; 3]; [2]] /\
  Permutation (concat [[1; 3]; [2]]) [1; 2; 3] /\
  exists (As : list sampled_value) (m s : num),
    mapM summarise (map (map Float) [[1; 3]; [2]]) = Ok As
    /\ arithmetic_mean (map Float [1; 2; 3]) = Ok m
    /\ combined_arithmetic_mean As None = Ok m
    /\ sample_standard_deviation (map Float [1; 2; 3]) None None = Ok s
    /\ combined_sample_standard_deviation As None None None = Ok s.
Proof.
  assert (Hlen : (2 <= length [1; 2; 3])%nat) by (simpl; lia).
  assert (Hne : Forall (fun g : list R => g <> []) [[1; 3]; [2]]).
  { repeat constructor; discriminate. }
  assert (Hpart : Permutation (concat [[1; 3]; [2]]) [1; 2; 3]).
  { simpl. apply perm_skip. apply perm_swap. }
  split; [exact Hlen|]. split; [exact Hne|]. split; [exact Hpart|].
  exact (equivalence_law [1; 2; 3] [[1; 3]; [2]] Hlen Hne Hpart).
Defined.

(** ** Further properties of the base statistics *)

Section BaseStatisticsFacts.

Lemma sum_Int (X : list Z) : sum (map Int X) = Int (Zsum X).
Proof.
  apply num_ext.
  - rewrite is_int_sum. apply forallb_forall.
    intros y Hy. apply in_map_iff in Hy. now destruct Hy as [z [<- _]].
  - rewrite toR_sum, map_map. simpl. now rewrite IZR_Zsum.
Qed.

Lemma Rsum_bounds (lo hi : R) (X : list R) :
  Forall (fun x => lo <= x <= hi) X ->
  INR (length X) * lo <= Rsum X <= INR (length X) * hi.
Proof.
  induction 1 as [|x X Hx _ IH].
  - simpl. lra.
  - change (length (x :: X)) with (S (length X)).
    rewrite S_INR, Rsum_cons. lra.
Qed.

Lemma Rmean_bounds (lo hi : R) (X : list R) :
  X <> [] -> Forall (fun x => lo <= x <= hi) X -> lo <= Rmean X <= hi.
Proof.
  intros Hne HX. pose proof (Rsum_bounds lo hi X HX) as [Hlo Hhi].
  assert (Hn : 0 < INR (length X)).
  { destruct X; [congruence|]. apply lt_0_INR. simpl. lia. }
  unfold Rmean. split.
  - apply Rmult_le_reg_r with (INR (length X)); [assumption|].
    unfold Rdiv. rewrite Rmult_assoc, Rinv_l by lra. lra.
  - apply Rmult_le_reg_r with (INR (length X)); [assumption|].
    unfold Rdiv. rewrite Rmult_assoc, Rinv_l by lra. lra.
Qed.

Lemma Rsum_affine (a b : R) (X : list R) :
  Rsum (map (fun x => a * x + b) X) = a * Rsum X + INR (length X) * b.
Proof.
  induction X as [|x X IH].
  - simpl. ring.
  - change (length (x :: X)) with (S (length X)).
    rewrite S_INR, map_cons, !Rsum_cons, IH. ring.
Qed.

Lemma Rmean_affine (a b : R) (X : list R) :
  X <> [] -> Rmean (map (fun x => a * x + b) X) = a * Rmean X + b.
Proof.
  intros Hne. unfold Rmean. rewrite Rsum_affine, length_map.
  field. now apply INR_length_neq0.
Qed.

Lemma Rsq_dev_affine (a b m : R) (X : list R) :
  Rsq_dev (a * m + b) (map (fun x => a * x + b) X) = a ^ 2 * Rsq_dev m X.
Proof.
  unfold Rsq_dev. induction X as [|x X IH].
  - simpl. ring.
  - rewrite !map_cons, !Rsum_cons, IH. ring.
Qed.

Lemma Rsum_nonneg_zero (l : list R) :
  Forall (fun x => 0 <= x) l -> Rsum l = 0 -> Forall (fun x => x = 0) l.
Proof.
  induction 1 as [|x l Hx Hl IH]; intros Hs; [constructor|].
  rewrite Rsum_cons in Hs. pose proof (Rsum_nonneg l Hl).
  constructor; [lra|]. apply IH. lra.
Qed.

Lemma Rsq_dev_zero_iff (m : R) (X : list R) :
  Rsq_dev m X = 0 <-> Forall (fun x => x = m) X.
Proof.
  unfold Rsq_dev. split.
  - intros Hs. apply Rsum_nonneg_zero in Hs.
    + rewrite Forall_map in Hs. eapply Forall_impl; [|exact Hs].
      intros x Hx. cbv beta in Hx. nra.
    + apply Forall_map, Forall_forall. intros x _. apply pow2_ge_0.
  - induction 1 as [|x X Hx _ IH]; [reflexivity|].
    rewrite map_cons, Rsum_cons, IH, Hx. ring.
Qed.

Lemma length_ge2_nonempty {A : Type} (X : list A) :
  (2 <= length X)%nat -> X <> [].
Proof. destruct X; [simpl; lia | discriminate]. Qed.

Lemma INR_pred_pos {A : Type} (X : list A) :
  (2 <= length X)%nat -> 0 < INR (length X) - 1.
Proof. intros H. apply le_INR in H. simpl in H. lra. Qed.

End BaseStatisticsFacts.

(** X1: on a non-empty list of ints [arithmetic_mean] returns an int, the
    floor of the true mean: the division of Python 2 on two ints. *)
Theorem arithmetic_mean_ints_floor (X : list Z) (Hne : X <> []) :
  exists q : Z,
    arithmetic_mean (map Int X) = Ok (Int q)
    /\ (Z.of_nat (length X) * q <= Zsum X < Z.of_nat (length X) * (q + 1))%Z.
Proof.
  assert (Hn : (0 < Z.of_nat (length X))%Z).
  { destruct X; [congruence|]. simpl length. lia. }
  exists (Zsum X / Z.of_nat (length X))%Z. split.
  - unfold arithmetic_mean, len. rewrite sum_Int, length_map. unfold div.
    destruct (Z.eq_dec (Z.of_nat (length X)) 0); [lia | reflexivity].
  - split.
    + apply Z.mul_div_le. exact Hn.
    + rewrite Z.mul_add_distr_l, Z.mul_1_r.
      pose proof (Z.mod_pos_bound (Zsum X) (Z.of_nat (length X)) Hn).
      pose proof (Z.div_mod (Zsum X) (Z.of_nat (length X))). lia.
Qed.

Lemma arithmetic_mean_ints_floor_witness :
  [1%Z; 2%Z] <> [] /\
  exists q : Z,
    arithmetic_mean (map Int [1%Z; 2%Z]) = Ok (Int q)
    /\ (2 * q <= 3 < 2 * (q + 1))%Z.
Proof.
  split; [discriminate|].
  exact (arithmetic_mean_ints_floor [1%Z; 2%Z] ltac:(discriminate)).
Defined.

(** X2: over the reals (rounding aside), the arithmetic mean of a
    non-empty sequence lies between any lower and upper bound of its
    elements. *)
Theorem arithmetic_mean_between (X : list R) (lo hi : R)
  (Hne : X <> []) (Hb : Forall (fun x => lo <= x <= hi) X) :
  exists m : R,
    arithmetic_mean (map Float X) = Ok (Float m) /\ lo <= m <= hi.
Proof.
  exists (Rmean X). split.
  - now apply arithmetic_mean_Float.
  - now apply Rmean_bounds.
Qed.

Lemma arithmetic_mean_between_witness :
  [3; 5] <> [] /\ Forall (fun x => 3 <= x <= 5) [3; 5] /\
  exists m : R,
    arithmetic_mean (map Float [3; 5]) = Ok (Float m) /\ 3 <= m <= 5.
Proof.
  assert (Hne : [3; 5] <> []) by discriminate.
  assert (Hb : Forall (fun x => 3 <= x <= 5) [3; 5]).
  { repeat constructor; lra. }
  split; [exact Hne|]. split; [exact Hb|].
  exact (arithmetic_mean_between [3; 5] 3 5 Hne Hb).
Defined.

(** X3: over the reals (rounding aside), under an affine change of the
    observations, [x -> a * x + b] (a change of unit), the mean changes by
    the same map and the sample variance is multiplied by [a^2]; a shift
    alone leaves it unchanged. *)
Theorem statistics_affine (X : list R) (a b : R)
  (Hlen : (2 <= length X)%nat) :
  exists m v : R,
    arithmetic_mean (map Float X) = Ok (Float m)
    /\ sample_variance (map Float X) None = Ok (Float v)
    /\ arithmetic_mean (map Float (map (fun x => a * x + b) X))
       = Ok (Float (a * m + b))
    /\ sample_variance (map Float (map (fun x => a * x + b) X)) None
       = Ok (Float (a ^ 2 * v)).
Proof.
  pose proof (length_ge2_nonempty X Hlen) as Hne.
  pose proof (INR_pred_pos X Hlen) as Hn1.
  set (Y := map (fun x => a * x + b) X).
  assert (HlenY : (2 <= length Y)%nat) by (unfold Y; now rewrite length_map).
  pose proof (length_ge2_nonempty Y HlenY) as HneY.
  exists (Rmean X), (Rvariance_about (Rmean X) X). repeat split.
  - now apply arithmetic_mean_Float.
  - now apply sample_variance_Float_mean.
  - rewrite arithmetic_mean_Float by assumption.
    unfold Y. now rewrite Rmean_affine.
  - rewrite sample_variance_Float_mean by assumption.
    unfold Y. rewrite Rmean_affine by assumption.
    unfold Rvariance_about. rewrite Rsq_dev_affine, length_map.
    do 2 f_equal. field. lra.
Qed.

Lemma statistics_affine_witness :
  (2 <= length [1; 3])%nat /\
  exists m v : R,
    arithmetic_mean (map Float [1; 3]) = Ok (Float m)
    /\ sample_variance (map Float [1; 3]) None = Ok (Float v)
    /\ arithmetic_mean (map Float (map (fun x => 10 * x + 4) [1; 3]))
       = Ok (Float (10 * m + 4))
    /\ sample_variance (map Float (map (fun x => 10 * x + 4) [1; 3])) None
       = Ok (Float (10 ^ 2 * v)).
Proof.
  assert (Hlen : (2 <= length [1; 3])%nat) by (simpl; lia).
  split; [exact Hlen|].
  exact (statistics_affine [1; 3] 10 4 Hlen).
Defined.

(** X4: a supplied mean is not checked, and over the reals (rounding
    aside) a wrong one can only raise the result: [sample_variance(X, m)]
    exceeds [sample_variance(X)] by [n * (mean - m)^2 / (n - 1)], so the two
    agree exactly when [m] is the arithmetic mean. *)
Theorem sample_variance_supplied_mean (X : list R) (m : num)
  (Hlen : (2 <= length X)%nat) :
  exists u v0 v1 : R,
    arithmetic_mean (map Float X) = Ok (Float u)
    /\ sample_variance (map Float X) None = Ok (Float v0)
    /\ sample_variance (map Float X) (Some m) = Ok (Float v1)
    /\ v1 = v0 + INR (length X) * (u - toR m) ^ 2 / (INR (length X) - 1)
    /\ v0 <= v1
    /\ (v1 = v0 <-> toR m = u).
Proof.
  pose proof (length_ge2_nonempty X Hlen) as Hne.
  pose proof (INR_pred_pos X Hlen) as Hn1.
  exists (Rmean X), (Rvariance_about (Rmean X) X),
    (Rvariance_about (toR m) X).
  assert (Heq : Rvariance_about (toR m) X =
                Rvariance_about (Rmean X) X
                + INR (length X) * (Rmean X - toR m) ^ 2
                  / (INR (length X) - 1)).
  { unfold Rvariance_about. rewrite (Rsq_dev_shift (toR m) X Hne).
    field. lra. }
  assert (Hpos : 0 <= INR (length X) * (Rmean X - toR m) ^ 2
                      / (INR (length X) - 1)).
  { apply Rmult_le_pos.
    - apply Rmult_le_pos; [lra | apply pow2_ge_0].
    - left. now apply Rinv_0_lt_compat. }
  repeat split.
  - now apply arithmetic_mean_Float.
  - now apply sample_variance_Float_mean.
  - now apply sample_variance_Float.
  - exact Heq.
  - lra.
  - intros H. rewrite Heq in H.
    assert (Hz : INR (length X) * (Rmean X - toR m) ^ 2
                 / (INR (length X) - 1) = 0) by lra.
    apply (Rmult_eq_compat_r (INR (length X) - 1)) in Hz.
    unfold Rdiv in Hz. rewrite Rmult_assoc, Rinv_l, Rmult_0_l in Hz by lra.
    assert (Hsq : (Rmean X - toR m) ^ 2 = 0) by nra.
    nra.
  - intros H. rewrite Heq, H. unfold Rdiv. ring.
Qed.

Lemma sample_variance_supplied_mean_witness :
  (2 <= length [1; 3])%nat /\
  exists u v0 v1 : R,
    arithmetic_mean (map Float [1; 3]) = Ok (Float u)
    /\ sample_variance (map Float [1; 3]) None = Ok (Float v0)
    /\ sample_variance (map Float [1; 3]) (Some (Float 5)) = Ok (Float v1)
    /\ v0 <= v1.
Proof.
  assert (Hlen : (2 <= length [1; 3])%nat) by (simpl; lia).
  split; [exact Hlen|].
  destruct (sample_variance_supplied_mean [1; 3] (Float 5) Hlen)
    as (u & v0 & v1 & Hu & H0 & H1 & _ & Hle & _).
  exists u, v0, v1. repeat split; assumption.
Defined.

(** X5: over the reals (rounding aside), the sample variance of at least
    two observations is zero exactly when all the observations are
    equal. *)
Theorem sample_variance_zero_iff (X : list R) (Hlen : (2 <= length X)%nat) :
  exists v : R,
    sample_variance (map Float X) None = Ok (Float v)
    /\ (v = 0 <-> forall x y, In x X -> In y X -> x = y).
Proof.
  pose proof (length_ge2_nonempty X Hlen) as Hne.
  pose proof (INR_pred_pos X Hlen) as Hn1.
  exists (Rvariance_about (Rmean X) X). split.
  - now apply sample_variance_Float_mean.
  - unfold Rvariance_about. split.
    + intros Hz.
      assert (Hs : Rsq_dev (Rmean X) X = 0).
      { apply (Rmult_eq_compat_r (INR (length X) - 1)) in Hz.
        unfold Rdiv in Hz.
        rewrite Rmult_assoc, Rinv_l, Rmult_0_l in Hz by lra. lra. }
      apply Rsq_dev_zero_iff in Hs. rewrite Forall_forall in Hs.
      intros x y Hx Hy. rewrite (Hs x Hx), (Hs y Hy). reflexivity.
    + intros Hall.
      destruct X as [|x0 X']; [congruence|].
      assert (Hc : Forall (fun x => x0 <= x <= x0) (x0 :: X')).
      { apply Forall_forall. intros x Hx.
        rewrite (Hall x x0 Hx (or_introl eq_refl)). lra. }
      pose proof (Rmean_bounds x0 x0 (x0 :: X') Hne Hc) as Hm.
      assert (Hmx : Rmean (x0 :: X') = x0) by lra.
      assert (Hs : Rsq_dev (Rmean (x0 :: X')) (x0 :: X') = 0).
      { apply Rsq_dev_zero_iff. apply Forall_forall. intros x Hx.
        rewrite Hmx. apply Hall; [assumption | now left]. }
      rewrite Hs. unfold Rdiv. ring.
Qed.

Lemma sample_variance_zero_iff_witness :
  (2 <= length [4; 4])%nat /\
  exists v : R,
    sample_variance (map Float [4; 4]) None = Ok (Float v)
    /\ (v = 0 <-> forall x y, In x [4; 4] -> In y [4; 4] -> x = y).
Proof.
  assert (Hlen : (2 <= length [4; 4])%nat) by (simpl; lia).
  split; [exact Hlen|].
  exact (sample_variance_zero_iff [4; 4] Hlen).
Defined.

Lemma sqrt_outcome (v : num) :
  (toR v < 0 -> Py.sqrt v = Raise ValueError)
  /\ (0 <= toR v -> Py.sqrt v = Ok (Float (R_sqrt.sqrt (toR v)))).
Proof.
  unfold Py.sqrt. destruct (Rlt_dec (toR v) 0); split; intros; try lra;
    reflexivity.
Qed.

Lemma arithmetic_mean_ok (X : list num) :
  X <> [] -> exists u, arithmetic_mean X = Ok u.
Proof.
  intros Hne. apply div_ok. rewrite toR_len. now apply INR_length_neq0.
Qed.

(** X6: on at least two reals [sample_standard_deviation] returns the
    non-negative square root of what [sample_variance] returns for the same
    mean argument. *)
Theorem sample_standard_deviation_spec (X : list R) (mean : option num)
  (Hlen : (2 <= length X)%nat) :
  exists v s : R,
    sample_variance (map Float X) mean = Ok (Float v)
    /\ sample_standard_deviation (map Float X) mean None = Ok (Float s)
    /\ 0 <= s /\ s * s = v.
Proof.
  pose proof (length_ge2_nonempty X Hlen) as Hne.
  pose proof (INR_pred_pos X Hlen) as Hn1.
  set (m := match mean with Some m => m | None => Float (Rmean X) end).
  assert (Hvar : sample_variance (map Float X) mean =
                 Ok (Float (Rvariance_about (toR m) X))).
  { destruct mean as [u|]; subst m.
    - now apply sample_variance_Float.
    - now apply sample_variance_Float_mean. }
  assert (Hv : 0 <= Rvariance_about (toR m) X).
  { unfold Rvariance_about. apply Rmult_le_pos; [apply Rsq_dev_nonneg|].
    left. now apply Rinv_0_lt_compat. }
  exists (Rvariance_about (toR m) X),
    (R_sqrt.sqrt (Rvariance_about (toR m) X)).
  repeat split.
  - exact Hvar.
  - unfold sample_standard_deviation.
    assert (Hu : default mean (arithmetic_mean (map Float X)) = Ok m).
    { destruct mean as [u|]; subst m; cbn [default]; [reflexivity|].
      now apply arithmetic_mean_Float. }
    rewrite Hu. cbn [bind default].
    rewrite sample_variance_Float by assumption. cbn [bind].
    now apply (proj2 (sqrt_outcome (Float (Rvariance_about (toR m) X)))).
  - apply sqrt_pos.
  - now apply sqrt_sqrt.
Qed.

Lemma sample_standard_deviation_spec_witness :
  (2 <= length [1; 3])%nat /\
  exists v s : R,
    sample_variance (map Float [1; 3]) None = Ok (Float v)
    /\ sample_standard_deviation (map Float [1; 3]) None None = Ok (Float s)
    /\ 0 <= s /\ s * s = v.
Proof.
  assert (Hlen : (2 <= length [1; 3])%nat) by (simpl; lia).
  split; [exact Hlen|].
  exact (sample_standard_deviation_spec [1; 3] None Hlen).
Defined.

(** X7: a supplied variance does not stop [sample_standard_deviation] from
    computing an omitted mean first.  With [v] supplied the call raises
    [ZeroDivisionError] when [u] is omitted and the sequence is empty;
    otherwise it never looks at the observations: it raises [ValueError]
    when [v] is negative and returns the square root of [v] when it is
    not. *)
Theorem sample_standard_deviation_supplied_variance
  (X : list num) (u : option num) (v : num) :
  (u = None /\ X = [] ->
     raises ZeroDivisionError (sample_standard_deviation X u (Some v)))
  /\ (~ (u = None /\ X = []) -> toR v < 0 ->
     raises ValueError (sample_standard_deviation X u (Some v)))
  /\ (~ (u = None /\ X = []) -> 0 <= toR v ->
     sample_standard_deviation X u (Some v)
     = Ok (Float (R_sqrt.sqrt (toR v)))).
Proof.
  unfold raises, sample_standard_deviation.
  split; [|assert (Hu : ~ (u = None /\ X = []) ->
                        exists u', default u (arithmetic_mean X) = Ok u')].
  - intros [-> ->]. cbn [default]. unfold arithmetic_mean.
    now rewrite div_zero.
  - intros Hnot. destruct u as [u'|]; cbn [default]; [eauto|].
    apply arithmetic_mean_ok. intros ->. now apply Hnot.
  - split; intros Hnot Hv; destruct (Hu Hnot) as [u' ->]; cbn [bind default].
    + now apply sqrt_outcome.
    + now apply sqrt_outcome.
Qed.

Lemma sample_standard_deviation_supplied_variance_witness :
  raises ZeroDivisionError
    (sample_standard_deviation [] None (Some (Float 4)))
  /\ raises ValueError
    (sample_standard_deviation [] (Some (Float 0)) (Some (Float (-4))))
  /\ sample_standard_deviation [Float 1] None (Some (Float 4))
     = Ok (Float (R_sqrt.sqrt 4)).
Proof.
  split; [|split].
  - apply (proj1 (sample_standard_deviation_supplied_variance
                    [] None (Float 4))).
    split; reflexivity.
  - apply (proj1 (proj2 (sample_standard_deviation_supplied_variance
                           [] (Some (Float 0)) (Float (-4))))).
    + intros [H _]. discriminate.
    + simpl. lra.
  - apply (proj2 (proj2 (sample_standard_deviation_supplied_variance
                           [Float 1] None (Float 4)))).
    + intros [_ H]. discriminate.
    + simpl. lra.
Defined.

(** ** Further properties of the combination algebra *)

Section CombinationFacts.

Lemma Zsum_app (l1 l2 : list Z) : Zsum (l1 ++ l2) = (Zsum l1 + Zsum l2)%Z.
Proof. induction l1 as [|z l1 IH]; simpl; [reflexivity | rewrite IH; lia]. Qed.

Lemma count_ge_length (As : list sampled_value) :
  Forall (fun A => (1 <= samples A)%Z) As ->
  (Z.of_nat (length As) <= Zsum (map samples As))%Z.
Proof.
  induction 1 as [|A As HA _ IH]; [simpl; lia|].
  cbn [length map Zsum fold_right]. unfold Zsum in IH. lia.
Qed.

Lemma weighted_sum_bounds (lo hi : R) (As : list sampled_value) :
  Forall (fun A => (1 <= samples A)%Z) As ->
  Forall (fun A => lo <= toR (quantity A) <= hi) As ->
  IZR (Zsum (map samples As)) * lo <= weighted_sum As
  <= IZR (Zsum (map samples As)) * hi.
Proof.
  unfold weighted_sum. induction 1 as [|A As HA _ IH]; intros Hb.
  - simpl. lra.
  - inversion Hb as [|A' As' HbA HbAs]; subst.
    specialize (IH HbAs).
    cbn [map Zsum fold_right]. fold (Zsum (map samples As)).
    rewrite plus_IZR. rewrite Rsum_cons.
    apply IZR_le in HA.
    assert (0 < IZR (samples A)) by lra.
    split; nra.
Qed.

Lemma weighted_sum_equal_counts (k : Z) (As : list sampled_value) :
  Forall (fun A => samples A = k) As ->
  weighted_sum As = IZR k * Rsum (map toR (map quantity As))
  /\ Zsum (map samples As) = (Z.of_nat (length As) * k)%Z.
Proof.
  unfold weighted_sum. induction 1 as [|A As HA _ [IHw IHc]].
  - simpl. split; [ring | reflexivity].
  - split.
    + rewrite !map_cons, !Rsum_cons, IHw, HA. ring.
    + cbn [map Zsum fold_right length]. fold (Zsum (map samples As)).
      rewrite IHc, HA. lia.
Qed.

Lemma combined_arithmetic_mean_computed_count (As : list sampled_value) :
  combined_arithmetic_mean As None =
  combined_arithmetic_mean As (Some (Int (Zsum (map samples As)))).
Proof.
  unfold combined_arithmetic_mean. cbn [default bind].
  now rewrite combined_sample_size_Int.
Qed.

End CombinationFacts.

(** X8: [combined_sample_size] always returns an int, and the size of a
    concatenation is the sum of the sizes. *)
Theorem combined_sample_size_app (As Bs : list sampled_value) :
  exists a b : Z,
    combined_sample_size As = Int a
    /\ combined_sample_size Bs = Int b
    /\ combined_sample_size (As ++ Bs) = Int (a + b).
Proof.
  exists (Zsum (map samples As)), (Zsum (map samples Bs)).
  rewrite !combined_sample_size_Int, map_app, Zsum_app. repeat split.
Qed.

(** X9: [combined_arithmetic_mean] raises [ZeroDivisionError] exactly when
    the sample count it works with (the supplied [n], else the sum of the
    sample counts) is [0], and returns a value for every other count. *)
Theorem combined_arithmetic_mean_failure (As : list sampled_value)
  (n : option Z) :
  let k := count_in_use As n in
  let c := combined_arithmetic_mean As (option_map Int n) in
  (raises ZeroDivisionError c <-> k = 0%Z)
  /\ ((exists m, c = Ok m) <-> k <> 0%Z).
Proof.
  intros k c. subst c. unfold combined_arithmetic_mean.
  rewrite default_count. fold k. cbn [bind].
  match goal with |- context [div ?s _] => set (S := s) end.
  pose proof (div_raises_iff S (Int k) ZeroDivisionError) as Hr.
  rewrite IZR_zero_iff in Hr.
  split; [rewrite Hr; tauto|]. split.
  - intros [m Hm] Hk.
    assert (HR : raises ZeroDivisionError (div S (Int k))) by (apply Hr; tauto).
    unfold raises in HR. congruence.
  - intros Hk. apply div_ok. now rewrite IZR_zero_iff.
Qed.

Lemma combined_arithmetic_mean_failure_witness :
  raises ZeroDivisionError (combined_arithmetic_mean [] None).
Proof.
  apply (proj1 (combined_arithmetic_mean_failure [] None)). reflexivity.
Defined.



(** X11: over the reals (rounding aside), the combined mean of summaries
    with at least one sample each lies between any lower and upper bound of
    their means. *)
Theorem combined_arithmetic_mean_between (As : list sampled_value)
  (lo hi : R)
  (Hne : As <> []) (Hfl : Forall float_mean As)
  (Hs : Forall (fun A => (1 <= samples A)%Z) As)
  (Hb : Forall (fun A => lo <= toR (quantity A) <= hi) As) :
  exists m : R,
    combined_arithmetic_mean As None = Ok (Float m) /\ lo <= m <= hi.
Proof.
  pose proof (count_ge_length As Hs) as Hge.
  pose proof (weighted_sum_bounds lo hi As Hs Hb) as [Hlo Hhi].
  set (k := Zsum (map samples As)) in *.
  assert (Hk : (1 <= k)%Z).
  { destruct As; [congruence|]. simpl length in Hge. lia. }
  assert (Hk0 : 0 < IZR k) by (apply IZR_le in Hk; lra).
  exists (weighted_sum As / IZR k). split.
  - rewrite combined_arithmetic_mean_computed_count. fold k.
    apply combined_arithmetic_mean_Float; try assumption. lia.
  - split.
    + apply Rmult_le_reg_r with (IZR k); [assumption|].
      unfold Rdiv. rewrite Rmult_assoc, Rinv_l by lra. lra.
    + apply Rmult_le_reg_r with (IZR k); [assumption|].
      unfold Rdiv. rewrite Rmult_assoc, Rinv_l by lra. lra.
Qed.

Lemma combined_arithmetic_mean_between_witness :
  let A := mk_sampled_value (Float 4) (Float 1) 8 None in
  let B := mk_sampled_value (Float 2) (Float 3) 5 None in
  [A; B] <> [] /\ Forall float_mean [A; B] /\
  Forall (fun A => (1 <= samples A)%Z) [A; B] /\
  Forall (fun A => 2 <= toR (quantity A) <= 4) [A; B] /\
  exists m : R,
    combined_arithmetic_mean [A; B] None = Ok (Float m) /\ 2 <= m <= 4.
Proof.
  intros A B.
  assert (Hne : [A; B] <> []) by discriminate.
  assert (Hfl : Forall float_mean [A; B]) by (repeat constructor).
  assert (Hs : Forall (fun A => (1 <= samples A)%Z) [A; B]).
  { repeat constructor; simpl; lia. }
  assert (Hb : Forall (fun A => 2 <= toR (quantity A) <= 4) [A; B]).
  { repeat constructor; simpl; lra. }
  split; [exact Hne|]. split; [exact Hfl|]. split; [exact Hs|].
  split; [exact Hb|].
  exact (combined_arithmetic_mean_between [A; B] 2 4 Hne Hfl Hs Hb).
Defined.

(** X12: over the reals (rounding aside), when every summary has the same
    non-zero sample count, the combined mean is the plain arithmetic mean of
    the means. *)
Theorem combined_arithmetic_mean_equal_counts (As : list sampled_value)
  (k : Z)
  (Hne : As <> []) (Hfl : Forall float_mean As)
  (Hk : k <> 0%Z) (Heq : Forall (fun A => samples A = k) As) :
  exists m : R,
    combined_arithmetic_mean As None = Ok (Float m)
    /\ arithmetic_mean (map quantity As) = Ok (Float m).
Proof.
  destruct (weighted_sum_equal_counts k As Heq) as [Hw Hc].
  pose proof (INR_length_neq0 As Hne) as Hg.
  assert (Hk0 : IZR k <> 0) by (intros H; apply eq_IZR in H; contradiction).
  exists (Rsum (map toR (map quantity As)) / INR (length As)). split.
  - rewrite combined_arithmetic_mean_computed_count, Hc.
    rewrite combined_arithmetic_mean_Float; try assumption.
    + rewrite Hw, mult_IZR, <- INR_IZR_INZ. do 2 f_equal. field. tauto.
    + destruct As; [congruence|]. simpl length. nia.
  - unfold arithmetic_mean. rewrite sum_floats.
    + rewrite div_Float_l; rewrite toR_len, length_map;
        [reflexivity | assumption].
    + destruct As; [congruence | discriminate].
    + apply Forall_map. exact Hfl.
Qed.

Lemma combined_arithmetic_mean_equal_counts_witness :
  let A := mk_sampled_value (Float 4) (Float 1) 5 None in
  let B := mk_sampled_value (Float 2) (Float 3) 5 None in
  [A; B] <> [] /\ Forall float_mean [A; B] /\ 5%Z <> 0%Z /\
  Forall (fun A => samples A = 5%Z) [A; B] /\
  exists m : R,
    combined_arithmetic_mean [A; B] None = Ok (Float m)
    /\ arithmetic_mean [Float 4; Float 2] = Ok (Float m).
Proof.
  intros A B.
  assert (Hne : [A; B] <> []) by discriminate.
  assert (Hfl : Forall float_mean [A; B]) by (repeat constructor).
  assert (Hk : 5%Z <> 0%Z) by discriminate.
  assert (Heq : Forall (fun A => samples A = 5%Z) [A; B]).
  { repeat constructor. }
  split; [exact Hne|]. split; [exact Hfl|]. split; [exact Hk|].
  split; [exact Heq|].
  exact (combined_arithmetic_mean_equal_counts [A; B] 5 Hne Hfl Hk Heq).
Defined.

Section Pooling.

(** A sum with a float among its terms is a float. *)
Lemma sum_with_float (l : list num) :
  forallb is_int l = false -> sum l = Float (Rsum (map toR l)).
Proof.
  intros H. apply num_ext.
  - now rewrite is_int_sum.
  - now rewrite toR_sum.
Qed.

Lemma pooled_sq_dev_cons (A : sampled_value) (As : list sampled_value) (u : R) :
  pooled_sq_dev (A :: As) u =
  IZR (samples A) * (toR (quantity A) - u) ^ 2
  + toR (variance A) * (IZR (samples A) - 1) + pooled_sq_dev As u.
Proof. reflexivity. Qed.

Lemma pooled_sq_dev_app (As Bs : list sampled_value) (u : R) :
  pooled_sq_dev (As ++ Bs) u = pooled_sq_dev As u + pooled_sq_dev Bs u.
Proof. unfold pooled_sq_dev. now rewrite map_app, Rsum_app. Qed.

Lemma weighted_sum_cons (A : sampled_value) (As : list sampled_value) :
  weighted_sum (A :: As) =
  IZR (samples A) * toR (quantity A) + weighted_sum As.
Proof. reflexivity. Qed.

Lemma weighted_sum_app (As Bs : list sampled_value) :
  weighted_sum (As ++ Bs) = weighted_sum As + weighted_sum Bs.
Proof. unfold weighted_sum. now rewrite map_app, Rsum_app. Qed.

(** Moving the centre of the pooled squared deviations from [u] to [u']
    changes them by the weighted sum of the means and by the count. *)
Lemma pooled_sq_dev_move (As : list sampled_value) (u u' : R) :
  pooled_sq_dev As u' =
  pooled_sq_dev As u
  + 2 * (u - u') * weighted_sum As
  + IZR (Zsum (map samples As)) * (u' ^ 2 - u ^ 2).
Proof.
  induction As as [|A As IH].
  - unfold pooled_sq_dev, weighted_sum. simpl. ring.
  - rewrite !pooled_sq_dev_cons, weighted_sum_cons, IH.
    cbn [map Zsum fold_right]. fold (Zsum (map samples As)).
    rewrite plus_IZR. ring.
Qed.

(** About the weighted mean the pooled squared deviations are least. *)
Lemma pooled_sq_dev_shift (As : list sampled_value) (u' : R) :
  let k := IZR (Zsum (map samples As)) in
  k <> 0 ->
  pooled_sq_dev As u' =
  pooled_sq_dev As (weighted_sum As / k) + k * (weighted_sum As / k - u') ^ 2.
Proof.
  intros k Hk. rewrite (pooled_sq_dev_move As (weighted_sum As / k) u').
  fold k. field. exact Hk.
Qed.

(** The sums that the combination functions take, over the reals. *)
Lemma toR_size_terms (As : list sampled_value) :
  Rsum (map toR (map (unpack_tuple (fun u_i v_i n_i t_i => n_i)) As)) =
  IZR (Zsum (map samples As)).
Proof. rewrite <- toR_sum. fold (combined_sample_size As).
       now rewrite combined_sample_size_Int. Qed.

Lemma toR_weighted_terms (As : list sampled_value) :
  Rsum (map toR (map (unpack_tuple (fun u_i v_i n_i t_i => mul n_i u_i)) As))
  = weighted_sum As.
Proof.
  unfold weighted_sum. rewrite map_map. f_equal. apply map_ext. intros A.
  unfold unpack_tuple, sampled_value_iter. now rewrite toR_mul.
Qed.

Lemma toR_pooled_terms (As : list sampled_value) (u : num) :
  Rsum (map toR (map (unpack_tuple (fun u_i v_i n_i t_i =>
     add (mul n_i (pow2 (sub u_i u))) (mul v_i (sub n_i (Int 1))))) As))
  = pooled_sq_dev As (toR u).
Proof.
  unfold pooled_sq_dev. rewrite map_map. f_equal. apply map_ext. intros A.
  unfold unpack_tuple, sampled_value_iter.
  rewrite toR_add, !toR_mul, toR_pow2, !toR_sub. reflexivity.
Qed.

(** Two lists on which the three sums agree are combined alike. *)
Lemma combination_congruence (As Bs : list sampled_value) :
  combined_sample_size As = combined_sample_size Bs ->
  sum (map (unpack_tuple (fun u_i v_i n_i t_i => mul n_i u_i)) As) =
  sum (map (unpack_tuple (fun u_i v_i n_i t_i => mul n_i u_i)) Bs) ->
  (forall u,
     sum (map (unpack_tuple (fun u_i v_i n_i t_i =>
        add (mul n_i (pow2 (sub u_i u))) (mul v_i (sub n_i (Int 1))))) As) =
     sum (map (unpack_tuple (fun u_i v_i n_i t_i =>
        add (mul n_i (pow2 (sub u_i u))) (mul v_i (sub n_i (Int 1))))) Bs)) ->
  (forall n, combined_arithmetic_mean As n = combined_arithmetic_mean Bs n)
  /\ (forall n u,
        combined_sample_variance As n u = combined_sample_variance Bs n u)
  /\ (forall n u v,
        combined_sample_standard_deviation As n u v =
        combined_sample_standard_deviation Bs n u v).
Proof.
  intros Hsize Hw Hp.
  assert (Hmean : forall n,
             combined_arithmetic_mean As n = combined_arithmetic_mean Bs n).
  { intros n. unfold combined_arithmetic_mean. now rewrite Hsize, Hw. }
  assert (Hvar : forall n u,
             combined_sample_variance As n u = combined_sample_variance Bs n u).
  { intros n u. unfold combined_sample_variance. rewrite Hsize.
    destruct (default n (Ok (combined_sample_size Bs))) as [n'|e];
      [|reflexivity].
    cbn [bind]. rewrite Hmean.
    destruct (default u (combined_arithmetic_mean Bs (Some n'))) as [u'|e];
      [|reflexivity].
    cbn [bind]. now rewrite Hp. }
  repeat split; try assumption.
  intros n u v. unfold combined_sample_standard_deviation. rewrite Hsize.
  destruct (default n (Ok (combined_sample_size Bs))) as [n'|e];
    [|reflexivity].
  cbn [bind]. rewrite Hmean.
  destruct (default u (combined_arithmetic_mean Bs (Some n'))) as [u'|e];
    [|reflexivity].
  cbn [bind]. now rewrite Hvar.
Qed.

(** What the combined mean and variance of summaries with float means are,
    when they are returned. *)
Lemma combined_statistics_inv (As : list sampled_value) (u v : num) :
  Forall float_mean As ->
  combined_arithmetic_mean As None = Ok u ->
  combined_sample_variance As None None = Ok v ->
  let k := Zsum (map samples As) in
  As <> [] /\ k <> 0%Z /\ k <> 1%Z
  /\ u = Float (weighted_sum As / IZR k)
  /\ v = Float (pooled_sq_dev As (weighted_sum As / IZR k) / (IZR k - 1)).
Proof.
  intros Hfl Hu Hv k.
  rewrite combined_arithmetic_mean_computed_count in Hu. fold k in Hu.
  assert (Hk0 : k <> 0%Z).
  { intros E. rewrite E in Hu. unfold combined_arithmetic_mean in Hu.
    cbn [default bind] in Hu. rewrite div_zero in Hu. discriminate. }
  assert (Hne : As <> []).
  { intros ->. apply Hk0. reflexivity. }
  rewrite combined_arithmetic_mean_Float in Hu by assumption.
  injection Hu as Hu.
  change (@None num) with (option_map Int None) in Hv at 1.
  rewrite combined_sample_variance_bind in Hv.
  change (count_in_use As None) with k in Hv. cbn [default] in Hv.
  rewrite combined_arithmetic_mean_Float in Hv by assumption.
  cbn [bind] in Hv. rewrite combined_sample_variance_known in Hv.
  assert (Hk1 : k <> 1%Z).
  { intros E. rewrite E in Hv. change (sub (Int 1) (Int 1)) with (Int 0) in Hv.
    rewrite div_zero in Hv. discriminate. }
  rewrite pooled_terms_Float in Hv by assumption.
  rewrite div_Float_l in Hv by (now rewrite pred_count_zero_iff).
  rewrite toR_pred_count in Hv. cbn [toR] in Hv.
  injection Hv as Hv.
  repeat split; try assumption; symmetry; assumption.
Qed.

End Pooling.

(** X13: over the reals (rounding aside), pooling composes.  Replace a
    sub-list of summaries with float means by the single summary made of
    its combined mean, variance and sample size: every combination function
    returns the same result as on the flat list, whatever optional
    arguments are supplied. *)
Theorem pooling_composes (As Bs : list sampled_value)
  (u v : num) (k : Z) (t : option string)
  (Hfl : Forall float_mean As)
  (Hk : combined_sample_size As = Int k)
  (Hu : combined_arithmetic_mean As None = Ok u)
  (Hv : combined_sample_variance As None None = Ok v) :
  let P := mk_sampled_value u v k t in
  combined_sample_size (P :: Bs) = combined_sample_size (As ++ Bs)
  /\ (forall n,
        combined_arithmetic_mean (P :: Bs) n =
        combined_arithmetic_mean (As ++ Bs) n)
  /\ (forall n u',
        combined_sample_variance (P :: Bs) n u' =
        combined_sample_variance (As ++ Bs) n u')
  /\ (forall n u' v',
        combined_sample_standard_deviation (P :: Bs) n u' v' =
        combined_sample_standard_deviation (As ++ Bs) n u' v').
Proof.
  intros P.
  destruct (combined_statistics_inv As u v Hfl Hu Hv)
    as (Hne & Hk0 & Hk1 & Eu & Ev).
  rewrite combined_sample_size_Int in Hk. injection Hk as Hk.
  cbv zeta in Hk0, Hk1, Eu, Ev. rewrite Hk in Hk0, Hk1, Eu, Ev.
  assert (HkR : IZR k <> 0) by (intros H; apply eq_IZR in H; contradiction).
  assert (HkR1 : IZR k - 1 <> 0).
  { intros H. apply Hk1. apply eq_IZR. lra. }
  assert (Hhead : exists A As', As = A :: As' /\ is_int (quantity A) = false).
  { destruct As as [|A As']; [congruence|].
    inversion Hfl; subst. eauto. }
  destruct Hhead as (A & As' & EAs & HA).
  assert (Hsize : combined_sample_size (P :: Bs)
                  = combined_sample_size (As ++ Bs)).
  { rewrite !combined_sample_size_Int, map_app, Zsum_app, Hk. reflexivity. }
  split; [exact Hsize|].
  apply combination_congruence; [exact Hsize| |].
  - rewrite !sum_with_float.
    + f_equal. rewrite !toR_weighted_terms, weighted_sum_cons,
        weighted_sum_app.
      subst P. cbn [samples quantity]. rewrite Eu. cbn [toR]. field.
      exact HkR.
    + rewrite EAs. cbn [app map forallb]. unfold unpack_tuple at 1.
      cbn [sampled_value_iter]. now rewrite is_int_mul, HA.
    + subst P. cbn [map forallb]. unfold unpack_tuple at 1.
      cbn [sampled_value_iter quantity]. rewrite is_int_mul, Eu.
      reflexivity.
  - intros u'. rewrite !sum_with_float.
    + f_equal. rewrite !toR_pooled_terms, pooled_sq_dev_cons,
        pooled_sq_dev_app.
      rewrite (pooled_sq_dev_shift As (toR u')) by (now rewrite Hk).
      rewrite Hk. subst P. cbn [samples quantity variance].
      rewrite Eu, Ev. cbn [toR].
      field. split; assumption.
    + rewrite EAs. cbn [app map forallb]. unfold unpack_tuple at 1.
      cbn [sampled_value_iter].
      now rewrite is_int_add, !is_int_mul, is_int_pow2, is_int_sub, HA.
    + subst P. cbn [map forallb]. unfold unpack_tuple at 1.
      cbn [sampled_value_iter quantity].
      rewrite is_int_add, !is_int_mul, is_int_pow2, is_int_sub, Eu.
      reflexivity.
Qed.

Lemma pooling_composes_witness :
  let A := mk_sampled_value (Float 4) (Float 1) 2 None in
  let B := mk_sampled_value (Float 2) (Float 3) 5 None in
  exists (u v : num) (k : Z),
    Forall float_mean [A; A]
    /\ combined_sample_size [A; A] = Int k
    /\ combined_arithmetic_mean [A; A] None = Ok u
    /\ combined_sample_variance [A; A] None None = Ok v
    /\ combined_sample_standard_deviation
         [mk_sampled_value u v k None; B] None None None =
       combined_sample_standard_deviation ([A; A] ++ [B]) None None None.
Proof.
  intros A B.
  assert (Hfl : Forall float_mean [A; A]) by (repeat constructor).
  assert (Hne : [A; A] <> []) by discriminate.
  assert (Hk : combined_sample_size [A; A] = Int 4) by reflexivity.
  assert (Hu : combined_arithmetic_mean [A; A] None
               = Ok (Float (weighted_sum [A; A] / IZR 4))).
  { rewrite combined_arithmetic_mean_computed_count.
    apply combined_arithmetic_mean_Float; [assumption | assumption|].
    simpl. lia. }
  assert (Hv : exists v, combined_sample_variance [A; A] None None = Ok v).
  { change (@None num) with (option_map Int None) at 1.
    rewrite combined_sample_variance_bind. cbn [default].
    change (count_in_use [A; A] None) with 4%Z.
    rewrite combined_arithmetic_mean_Float by (try assumption; lia).
    cbn [bind]. rewrite combined_sample_variance_known.
    apply div_ok. simpl. lra. }
  destruct Hv as [v Hv].
  exists (Float (weighted_sum [A; A] / IZR 4)), v, 4%Z.
  repeat split; try assumption.
  exact (proj2 (proj2 (proj2
    (pooling_composes [A; A] [B] _ v 4 None Hfl Hk Hu Hv))) None None None).
Defined.

(** X14: a supplied variance does not stop
    [combined_sample_standard_deviation] from computing an omitted mean
    first.  With [v] supplied the call raises [ZeroDivisionError] when [u]
    is omitted and the sample count it works with is [0]; otherwise it
    raises [ValueError] when [v] is negative and returns the square root of
    [v] when it is not. *)
Theorem combined_standard_deviation_supplied_variance
  (As : list sampled_value) (n : option Z) (u : option num) (v : num) :
  let k := count_in_use As n in
  let c := combined_sample_standard_deviation As (option_map Int n) u
             (Some v) in
  (k = 0%Z /\ u = None -> raises ZeroDivisionError c)
  /\ (~ (k = 0%Z /\ u = None) -> toR v < 0 -> raises ValueError c)
  /\ (~ (k = 0%Z /\ u = None) -> 0 <= toR v ->
      c = Ok (Float (R_sqrt.sqrt (toR v)))).
Proof.
  intros k c. subst c. unfold raises.
  rewrite combined_sample_standard_deviation_bind. fold k.
  destruct (mean_step As k u) as [(Hk & Hu & ->)|(Hnot & u' & ->)];
    cbn [bind default].
  - repeat split; intros; tauto || reflexivity.
  - repeat split; intros; try tauto; now apply sqrt_outcome.
Qed.

Lemma combined_standard_deviation_supplied_variance_witness :
  raises ZeroDivisionError
    (combined_sample_standard_deviation [] None None (Some (Float 4)))
  /\ raises ValueError
    (combined_sample_standard_deviation [] None (Some (Float 0))
       (Some (Float (-4)))).
Proof.
  split.
  - apply (proj1 (combined_standard_deviation_supplied_variance
                    [] None None (Float 4))).
    split; reflexivity.
  - apply (proj1 (proj2 (combined_standard_deviation_supplied_variance
                           [] None (Some (Float 0)) (Float (-4))))).
    + intros [_ H]. discriminate.
    + simpl. lra.
Defined.

(** X15: a supplied combined mean is not checked, and over the reals
    (rounding aside) a wrong one can only raise the combined variance: with
    [n] computed, [combined_sample_variance(As, u = m)] exceeds
    [combined_sample_variance(As)] by [n * (mean - m)^2 / (n - 1)]. *)
Theorem combined_variance_supplied_mean (As : list sampled_value) (m : num)
  (Hne : As <> []) (Hfl : Forall float_mean As)
  (Hn : (2 <= Zsum (map samples As))%Z) :
  exists u v0 v1 : R,
    combined_arithmetic_mean As None = Ok (Float u)
    /\ combined_sample_variance As None None = Ok (Float v0)
    /\ combined_sample_variance As None (Some m) = Ok (Float v1)
    /\ v1 = v0 + IZR (Zsum (map samples As)) * (u - toR m) ^ 2
                 / (IZR (Zsum (map samples As)) - 1)
    /\ v0 <= v1.
Proof.
  set (k := Zsum (map samples As)) in *.
  assert (HkR : 2 <= IZR k) by (now apply IZR_le in Hn).
  assert (Hk0 : k <> 0%Z) by lia.
  set (u := weighted_sum As / IZR k).
  exists u, (pooled_sq_dev As u / (IZR k - 1)),
    (pooled_sq_dev As (toR m) / (IZR k - 1)).
  assert (Hmean : combined_arithmetic_mean As (Some (Int k)) = Ok (Float u)).
  { now apply combined_arithmetic_mean_Float. }
  assert (Hvar : forall w : num,
             combined_sample_variance As (Some (Int k)) (Some w)
             = Ok (Float (pooled_sq_dev As (toR w) / (IZR k - 1)))).
  { intros w. rewrite combined_sample_variance_known.
    rewrite pooled_terms_Float by assumption.
    rewrite div_Float_l; rewrite toR_pred_count; [reflexivity | lra]. }
  assert (Heq : pooled_sq_dev As (toR m) / (IZR k - 1) =
                pooled_sq_dev As u / (IZR k - 1)
                + IZR k * (u - toR m) ^ 2 / (IZR k - 1)).
  { rewrite (pooled_sq_dev_shift As (toR m)) by (fold k; lra).
    fold k. fold u. field. lra. }
  repeat split.
  - rewrite combined_arithmetic_mean_computed_count. exact Hmean.
  - change (@None num) with (option_map Int None) at 1.
    rewrite combined_sample_variance_bind.
    change (count_in_use As None) with k. cbn [default].
    rewrite Hmean. cbn [bind]. apply (Hvar (Float u)).
  - change (@None num) with (option_map Int None).
    rewrite combined_sample_variance_bind.
    change (count_in_use As None) with k. cbn [default bind]. apply Hvar.
  - exact Heq.
  - rewrite Heq.
    assert (0 <= IZR k * (u - toR m) ^ 2 / (IZR k - 1)); [|lra].
    apply Rmult_le_pos.
    + apply Rmult_le_pos; [lra | apply pow2_ge_0].
    + left. apply Rinv_0_lt_compat. lra.
Qed.

Lemma combined_variance_supplied_mean_witness :
  let A := mk_sampled_value (Float 4) (Float 1) 8 None in
  let B := mk_sampled_value (Float 2) (Float 3) 5 None in
  [A; B] <> [] /\ Forall float_mean [A; B] /\
  (2 <= Zsum (map samples [A; B]))%Z /\
  exists u v0 v1 : R,
    combined_arithmetic_mean [A; B] None = Ok (Float u)
    /\ combined_sample_variance [A; B] None None = Ok (Float v0)
    /\ combined_sample_variance [A; B] None (Some (Float 7)) = Ok (Float v1)
    /\ v0 <= v1.
Proof.
  intros A B.
  assert (Hne : [A; B] <> []) by discriminate.
  assert (Hfl : Forall float_mean [A; B]) by (repeat constructor).
  assert (Hn : (2 <= Zsum (map samples [A; B]))%Z) by (simpl; lia).
  split; [exact Hne|]. split; [exact Hfl|]. split; [exact Hn|].
  destruct (combined_variance_supplied_mean [A; B] (Float 7) Hne Hfl Hn)
    as (u & v0 & v1 & Hu & H0 & H1 & _ & Hle).
  exists u, v0, v1. repeat split; assumption.
Defined.

Section BaseFailure.




End BaseFailure.



(** X17: an observation wrapped by the constructor with its default sample
    count of one, and any zero for its variance, stands for itself:
    combining the wrapped observations of a sequence of at least two reals
    gives the sequence's own mean, sample variance and sample standard
    deviation. *)
Theorem observations_as_summaries (X : list R) (z : num) (t : option string)
  (Hz : toR z = 0) (Hlen : (2 <= length X)%nat) :
  let As := map (fun x => new_sampled_value (Float x) z None t) X in
  exists m v s : R,
    combined_sample_size As = len X
    /\ arithmetic_mean (map Float X) = Ok (Float m)
    /\ combined_arithmetic_mean As None = Ok (Float m)
    /\ sample_variance (map Float X) None = Ok (Float v)
    /\ combined_sample_variance As None None = Ok (Float v)
    /\ sample_standard_deviation (map Float X) None None = Ok (Float s)
    /\ combined_sample_standard_deviation As None None None = Ok (Float s).
Proof.
  intros As.
  pose proof (length_ge2_nonempty X Hlen) as Hne.
  pose proof (INR_pred_pos X Hlen) as Hn1.
  assert (HAs : As <> []).
  { subst As. destruct X; [congruence | discriminate]. }
  assert (Hfl : Forall float_mean As).
  { subst As. apply Forall_map, Forall_forall. intros x _. reflexivity. }
  assert (Hcount : Zsum (map samples As) = Z.of_nat (length X)).
  { subst As. rewrite map_map. cbn [new_sampled_value samples].
    clear. induction X as [|x X IH]; [reflexivity|].
    cbn [map Zsum fold_right length]. unfold Zsum in IH. rewrite IH. lia. }
  assert (Hw : weighted_sum As = Rsum X).
  { subst As. unfold weighted_sum. rewrite map_map.
    cbn [new_sampled_value samples quantity toR]. f_equal.
    rewrite <- (map_id X) at 2. apply map_ext. intros x. ring. }
  assert (Hp : forall u, pooled_sq_dev As u = Rsq_dev u X).
  { intros u. subst As. unfold pooled_sq_dev, Rsq_dev. rewrite map_map.
    cbn [new_sampled_value samples quantity variance toR]. f_equal.
    apply map_ext. intros x. rewrite Hz. ring. }
  set (v := Rvariance_about (Rmean X) X).
  assert (Hv : 0 <= v).
  { unfold v, Rvariance_about. apply Rmult_le_pos; [apply Rsq_dev_nonneg|].
    left. now apply Rinv_0_lt_compat. }
  assert (Hmean : combined_arithmetic_mean As
                    (Some (Int (Z.of_nat (length X)))) = Ok (Float (Rmean X))).
  { rewrite combined_arithmetic_mean_Float; try assumption.
    - now rewrite Hw, <- INR_IZR_INZ.
    - destruct X; [congruence|]. simpl length. lia. }
  assert (Hvar : combined_sample_variance As
                   (Some (Int (Z.of_nat (length X))))
                   (Some (Float (Rmean X))) = Ok (Float v)).
  { rewrite combined_sample_variance_known.
    rewrite pooled_terms_Float by assumption.
    rewrite div_Float_l; rewrite toR_pred_count, <- INR_IZR_INZ; [|lra].
    cbn [toR]. now rewrite Hp. }
  exists (Rmean X), v, (R_sqrt.sqrt v). repeat split.
  - rewrite combined_sample_size_Int, Hcount. reflexivity.
  - now apply arithmetic_mean_Float.
  - rewrite combined_arithmetic_mean_computed_count, Hcount. exact Hmean.
  - now apply sample_variance_Float_mean.
  - change (@None num) with (option_map Int None) at 1.
    rewrite combined_sample_variance_bind.
    change (count_in_use As None) with (Zsum (map samples As)).
    rewrite Hcount. cbn [default]. rewrite Hmean. cbn [bind]. exact Hvar.
  - unfold sample_standard_deviation. cbn [default].
    rewrite arithmetic_mean_Float by assumption. cbn [bind].
    rewrite sample_variance_Float by assumption. cbn [bind toR].
    exact (proj2 (sqrt_outcome (Float v)) Hv).
  - change (@None num) with (option_map Int None) at 1.
    rewrite combined_sample_standard_deviation_bind.
    change (count_in_use As None) with (Zsum (map samples As)).
    rewrite Hcount. cbn [default]. rewrite Hmean. cbn [bind].
    rewrite Hvar. cbn [bind].
    exact (proj2 (sqrt_outcome (Float v)) Hv).
Qed.

Lemma observations_as_summaries_witness :
  toR (Int 0) = 0 /\ (2 <= length [1; 3])%nat /\
  exists m v s : R,
    combined_sample_size
      (map (fun x => new_sampled_value (Float x) (Int 0) None None) [1; 3])
    = len [1; 3]
    /\ arithmetic_mean (map Float [1; 3]) = Ok (Float m)
    /\ combined_arithmetic_mean
         (map (fun x => new_sampled_value (Float x) (Int 0) None None) [1; 3])
         None = Ok (Float m)
    /\ sample_variance (map Float [1; 3]) None = Ok (Float v)
    /\ combined_sample_variance
         (map (fun x => new_sampled_value (Float x) (Int 0) None None) [1; 3])
         None None = Ok (Float v)
    /\ sample_standard_deviation (map Float [1; 3]) None None = Ok (Float s)
    /\ combined_sample_standard_deviation
         (map (fun x => new_sampled_value (Float x) (Int 0) None None) [1; 3])
         None None None = Ok (Float s).
Proof.
  assert (Hz : toR (Int 0) = 0) by reflexivity.
  assert (Hlen : (2 <= length [1; 3])%nat) by (simpl; lia).
  split; [exact Hz|]. split; [exact Hlen|].
  exact (observations_as_summaries [1; 3] (Int 0) None Hz Hlen).
Defined.

(** ** Evaluations on binary64 floats *)

Section DoubleEvaluation.

Import PrimFloat.

Local Set Warnings "-inexact-float".

(** Two doubles that the bitwise test tells apart are different. *)
Lemma float_neq (a b : float) :
  Leibniz.eqb a b = false -> Leibniz.eqb b b = true -> a <> b.
Proof. intros H T E. rewrite E in H. congruence. Qed.

(** C6 as stated fails on binary64 floats: the mean of
    [[0.1, 0.1, 0.1]] is [0.10000000000000002], not the repeated value
    [0.1]: the sum [0.1 + 0.1 + 0.1] rounds to [0.30000000000000004]. *)
Lemma arithmetic_mean_repeated_value_rounds :
  IEEE.arithmetic_mean
    (repeat (IEEE.Float 0.1%float) 3)
  = Ok (IEEE.Float 0.10000000000000002%float)
  /\ IEEE.arithmetic_mean (repeat (IEEE.Float 0.1%float) 3)
     <> Ok (IEEE.Float 0.1%float).
Proof.
  assert (H : IEEE.arithmetic_mean (repeat (IEEE.Float 0.1%float) 3)
              = Ok (IEEE.Float 0.10000000000000002%float))
    by (vm_compute; reflexivity).
  split; [exact H|]. rewrite H. intros E.
  apply (f_equal (fun r => match r with
                           | Ok (IEEE.Float f) => f
                           | _ => zero
                           end)) in E.
  revert E. apply float_neq; vm_compute; reflexivity.
Qed.

(** C5 as stated fails on binary64 floats: the one-element list made of
    the summary with mean [0.1], variance [0.3] and [3] samples has the
    combined mean [0.10000000000000002], not [0.1]: [3 * 0.1] rounds to
    [0.30000000000000004]. *)
Lemma trivial_grouping_rounds :
  IEEE.combined_arithmetic_mean
    [IEEE.mk_sampled_value (IEEE.Float 0.1%float) (IEEE.Float 0.3%float)
       3 None] None
  = Ok (IEEE.Float 0.10000000000000002%float)
  /\ IEEE.combined_arithmetic_mean
       [IEEE.mk_sampled_value (IEEE.Float 0.1%float) (IEEE.Float 0.3%float)
          3 None] None
     <> Ok (IEEE.Float 0.1%float).
Proof.
  assert (H : IEEE.combined_arithmetic_mean
                [IEEE.mk_sampled_value (IEEE.Float 0.1%float)
                   (IEEE.Float 0.3%float) 3 None] None
              = Ok (IEEE.Float 0.10000000000000002%float))
    by (vm_compute; reflexivity).
  split; [exact H|]. rewrite H. intros E.
  apply (f_equal (fun r => match r with
                           | Ok (IEEE.Float f) => f
                           | _ => zero
                           end)) in E.
  revert E. apply float_neq; vm_compute; reflexivity.
Qed.

(** The combined variance rounds in the same way: the summary with mean
    [1.0], variance [0.1] and [4] samples has the combined variance
    [0.10000000000000002]. *)
Example trivial_grouping_variance_rounds :
  IEEE.combined_sample_variance
    [IEEE.mk_sampled_value (IEEE.Float 1%float) (IEEE.Float 0.1%float)
       4 None] None None
  = Ok (IEEE.Float 0.10000000000000002%float).
Proof. vm_compute. reflexivity. Qed.

(** Where the statements over the reals leave the interpreter: three equal
    observations have a sample variance that is not zero, and supplying
    their exact common value as the mean lowers it to zero. *)
Example sample_variance_of_equal_observations_rounds :
  IEEE.sample_variance (repeat (IEEE.Float 0.1%float) 3) None
  = Ok (IEEE.Float 2.8888949165808538e-34%float)
  /\ IEEE.sample_variance (repeat (IEEE.Float 0.1%float) 3)
       (Some (IEEE.Float 0.1%float))
     = Ok (IEEE.Float 0%float).
Proof. split; vm_compute; reflexivity. Qed.

(** Errors on binary64 floats: the same [ZeroDivisionError] and
    [ValueError], and [OverflowError] when a square overflows. *)
Example double_errors :
  IEEE.arithmetic_mean [] = Raise ZeroDivisionError
  /\ IEEE.sample_variance [IEEE.Float 0.1%float] None
     = Raise ZeroDivisionError
  /\ IEEE.sample_standard_deviation [] (Some (IEEE.Float 0%float))
       (Some (IEEE.Float (-4)%float))
     = Raise ValueError
  /\ IEEE.sample_variance [IEEE.Float 1e200%float; IEEE.Float 0%float] None
     = Raise OverflowError.
Proof. repeat split; vm_compute; reflexivity. Qed.

End DoubleEvaluation.
